(** * Research-PoC (mcp-poc): context service and text-summarization service

    A shallow embedding of the parts of the two Python services that carry
    algorithmic behaviour:

    - [Pipeline]    services/text-summarization/pipeline.py
                    ([SummarizationPipeline.generate_summary], the retry /
                    fallback loop);
    - [Scorer]      services/text-summarization/pipeline.py
                    ([_calculate_semantic_similarity]);
    - [Auth]        services/context-service/auth.py
                    ([JWKSManager], [EnhancedJWTValidator]);
    - [RateLimiter] services/text-summarization/main.py
                    ([InMemoryRateLimiter]);
    - [Repository]  services/context-service/repository.py
                    ([ContextRepository] over the [contexts] table).

    Python exceptions are values of an error type, mutable objects are
    threaded as explicit state, and the outside world (AI backends, the JWKS
    endpoint, the clock) is a deterministic script indexed by the number of
    calls made so far. *)

From Stdlib Require Import ZArith QArith Lqa List Ascii.
From stdpp Require Import gmap strings list.

Local Open Scope string_scope.
Local Open Scope list_scope.

(** Strict comparison on rationals, as a boolean ([Qle_bool] is the
    library's non-strict one). *)
Definition Qlt_bool (x y : Q) : bool := negb (Qle_bool y x).

Lemma Qlt_bool_iff (x y : Q) : Qlt_bool x y = true <-> (x < y)%Q.
Proof.
  unfold Qlt_bool. rewrite negb_true_iff, <- not_true_iff_false, Qle_bool_iff.
  split; [apply Qnot_le_lt | apply Qlt_not_le].
Qed.

(** Python's [pattern in s] on strings. *)
Fixpoint contains (pattern s : string) : bool :=
  String.prefix pattern s
  || match s with
     | EmptyString => false
     | String _ s' => contains pattern s'
     end.

(** ** The summarization pipeline *)

Module Pipeline.

Local Open Scope Z_scope.

(** The exceptions that can leave [generate_summary]. [RuntimeError] is
    what a bare [raise] statement produces when no exception is being
    handled; [ValidationError] is pydantic's, from the response model, and
    lists the fields it refuses. *)
Inductive exn : Type :=
| ModelError (msg : string)
| SemanticThresholdError (threshold : Q) (attempts : Z) (score : Q)
| RuntimeError (msg : string)
| ValidationError (fields : list string).

Inductive result (A : Type) : Type :=
| Ok (a : A)
| Raise (e : exn).
Arguments Ok {A} a.
Arguments Raise {A} e.

(** The three texts appended to [warnings]; the formatted numbers of the
    Python f-strings are kept as fields. *)
Inductive warning : Type :=
| AttemptBelowThreshold (attempt : Z) (score threshold : Q)
| FallbackToLocal (failed_model : string)
| LocalFallbackFailed.

(** models.py, [SummarizationRequest] (the fields the pipeline reads).
    [request_id] is [Optional[str]]: it is a generated UUID when the
    client leaves it out, and [None] when the client sends [null]. The
    three numeric parameters are taken as numbers: [max_summary_length]
    and [summary_ratio] only travel to the backends, and [retry_attempts]
    is the integer the loop compares [attempts] with. *)
Record SummarizationRequest : Type := {
  text_blob : string;
  semantic_threshold : Q;
  ai_model : string;
  api_token : option string;
  max_summary_length : Z;
  summary_ratio : Q;
  retry_attempts : Z;
  request_id : option string
}.

Inductive status : Type := success | partial_success.

(** models.py, [SummarizationResponse]. The wall-clock fields
    ([processing_time_ms], [created_at]) and the float
    [compression_ratio] derived from the two lengths are left out. *)
Record SummarizationResponse : Type := {
  refined_text : string;
  semantic_score : Q;
  resp_request_id : string;
  original_length : nat;
  summary_length : nat;
  model_used : string;
  retry_count : Z;
  resp_status : status;
  resp_warnings : list warning
}.

(** The local variables of [generate_summary], together with the log of
    backend invocations ([calls], most recent last). *)
Record loop_state : Type := {
  attempts : Z;
  best_summary : string;
  best_score : Q;
  st_model_used : string;
  warnings : list warning;
  calls : list string
}.

(** How one pass through the body of the [while] loop ends. *)
Inductive flow : Type :=
| Continue (st : loop_state)
| Break (st : loop_state)
| Raised (e : exn) (st : loop_state).

Section Run.

(** [backend m n] is what the backend of model type [m] does when it is
    the [n]-th backend invocation of the request ([None]: it fails; each
    of [_generate_openai], [_generate_huggingface], [_generate_local] turns
    every failure into [ModelError]). *)
Variable backend : string -> nat -> option string.

(** The semantic scorer on (original, summary). *)
Variable similarity : string -> string -> Q.

Variable request : SummarizationRequest.

(** [_generate_with_model]: dispatch on the model type; the invocation is
    logged. An unknown model type raises before any backend is reached. *)
Definition _generate_with_model (model_type : string) (st : loop_state)
  : result string * loop_state :=
  if bool_decide (model_type = "openai")
     || bool_decide (model_type = "huggingface")
     || bool_decide (model_type = "local")
  then
    let st' := {| attempts := attempts st; best_summary := best_summary st;
                  best_score := best_score st; st_model_used := st_model_used st;
                  warnings := warnings st;
                  calls := calls st ++ [model_type] |} in
    match backend model_type (length (calls st)) with
    | Some summary => (Ok summary, st')
    | None => (Raise (ModelError ("backend failure: " +:+ model_type)), st')
    end
  else (Raise (ModelError ("Unknown model type: " +:+ model_type)), st).

(** [if semantic_score > best_score: best_summary, best_score = ...] *)
Definition track_best (summary : string) (score : Q) (st : loop_state) : loop_state :=
  if Qlt_bool (best_score st) score
  then {| attempts := attempts st; best_summary := summary; best_score := score;
          st_model_used := st_model_used st; warnings := warnings st;
          calls := calls st |}
  else st.

Definition add_warning (w : warning) (st : loop_state) : loop_state :=
  {| attempts := attempts st; best_summary := best_summary st;
     best_score := best_score st; st_model_used := st_model_used st;
     warnings := warnings st ++ [w]; calls := calls st |}.

Definition set_model_used (m : string) (st : loop_state) : loop_state :=
  {| attempts := attempts st; best_summary := best_summary st;
     best_score := best_score st; st_model_used := m;
     warnings := warnings st; calls := calls st |}.

Definition incr_attempts (st : loop_state) : loop_state :=
  {| attempts := attempts st + 1; best_summary := best_summary st;
     best_score := best_score st; st_model_used := st_model_used st;
     warnings := warnings st; calls := calls st |}.

(** Lines 140-178: the [try] block of one attempt and its
    [except ModelError] handler, which only logs. The boolean is [true]
    when the block left the loop through [break]. *)
Definition primary_attempt (st : loop_state) : loop_state * bool :=
  match _generate_with_model (ai_model request) st with
  | (Ok summary, st1) =>
      let semantic_score := similarity (text_blob request) summary in
      let st2 := track_best summary semantic_score st1 in
      if Qle_bool (semantic_threshold request) semantic_score
      then (st2, true)
      else if attempts st2 <? retry_attempts request
           then (add_warning (AttemptBelowThreshold (attempts st2) semantic_score
                                (semantic_threshold request)) st2, false)
           else (st2, false)
  | (Raise _, st1) => (st1, false)
  end.

(** Lines 180-209: the fallback block. It stands after the try statement,
    at the level of the loop body, guarded by
    [request.ai_model != "local" and attempts == 1]. *)
Definition fallback_attempt (st : loop_state) : loop_state * bool :=
  if negb (bool_decide (ai_model request = "local")) && (attempts st =? 1)
  then
    match _generate_with_model "local" st with
    | (Ok summary, st1) =>
        let semantic_score := similarity (text_blob request) summary in
        let st2 := set_model_used "local" st1 in
        let st3 := add_warning (FallbackToLocal (ai_model request)) st2 in
        let st4 := track_best summary semantic_score st3 in
        (st4, Qle_bool (semantic_threshold request) semantic_score)
    | (Raise _, st1) => (add_warning LocalFallbackFailed st1, false)
    end
  else (st, false).

(** Lines 138-213: one iteration. The last statement is a bare [raise]
    outside every handler: with no exception being handled, Python raises
    [RuntimeError("No active exception to reraise")]. *)
Definition loop_body (st : loop_state) : flow :=
  let st0 := incr_attempts st in
  let '(st1, broke) := primary_attempt st0 in
  if broke then Break st1
  else
    let '(st2, broke') := fallback_attempt st1 in
    if broke' then Break st2
    else if retry_attempts request <=? attempts st2
         then Raised (RuntimeError "No active exception to reraise") st2
         else Continue st2.

(** Lines 137-213: [while attempts < request.retry_attempts]. [None] means
    the fuel ran out. *)
Fixpoint retry_loop (fuel : nat) (st : loop_state) : option (result loop_state * loop_state) :=
  match fuel with
  | O => None
  | S fuel' =>
      if attempts st <? retry_attempts request
      then match loop_body st with
           | Continue st' => retry_loop fuel' st'
           | Break st' => Some (Ok st', st')
           | Raised e st' => Some (Raise e, st')
           end
      else Some (Ok st, st)
  end.

Definition initial_state : loop_state :=
  {| attempts := 0; best_summary := ""; best_score := 0%Q;
     st_model_used := ai_model request; warnings := []; calls := [] |}.

(** What pydantic refuses when [SummarizationResponse(...)] is built at
    lines 238-254: [semantic_score] is declared with [ge=0.0, le=1.0] and
    [request_id] as a required [str], which [None] is not. The fields are
    listed in the order of their declaration. *)
Definition refused_fields (st : loop_state) : list string :=
  (if Qle_bool 0 (best_score st) && Qle_bool (best_score st) 1
   then [] else ["semantic_score"])
  ++ match request_id request with
     | Some _ => []
     | None => ["request_id"]
     end.

(** Lines 215-261: the final check and the response. *)
Definition build_response (st : loop_state) : result SummarizationResponse :=
  if Qlt_bool (best_score st) (semantic_threshold request)
  then Raise (SemanticThresholdError (semantic_threshold request)
                (attempts st) (best_score st))
  else match refused_fields st, request_id request with
       | [], Some id =>
           Ok {| refined_text := best_summary st;
                 semantic_score := best_score st;
                 resp_request_id := id;
                 original_length := String.length (text_blob request);
                 summary_length := String.length (best_summary st);
                 model_used := st_model_used st;
                 retry_count := attempts st - 1;
                 resp_status := match warnings st with
                                | [] => success
                                | _ :: _ => partial_success
                                end;
                 resp_warnings := warnings st |}
       | fields, _ => Raise (ValidationError fields)
       end.

(** [generate_summary] with an explicit fuel; the outer
    [except Exception: ...; raise] re-raises what it caught. The second
    component is the final state, whose [calls] is the backend log. *)
Definition generate_summary_fuel (fuel : nat)
  : option (result SummarizationResponse * loop_state) :=
  match retry_loop fuel initial_state with
  | None => None
  | Some (Ok st, st') => Some (build_response st, st')
  | Some (Raise e, st') => Some (Raise e, st')
  end.

(** The loop makes at most [retry_attempts] passes and one more test of its
    condition. *)
Definition loop_fuel : nat := S (Z.to_nat (retry_attempts request)).

Definition generate_summary : option (result SummarizationResponse * loop_state) :=
  generate_summary_fuel loop_fuel.

(** The number of invocations of the fallback backend in the log. *)
Definition local_calls (st : loop_state) : nat :=
  count_occ String.string_dec (calls st) "local".

(** The state a pass ends in. *)
Definition flow_state (f : flow) : loop_state :=
  match f with Continue st | Break st | Raised _ st => st end.

(** *** Properties of the loop *)

Lemma generate_with_model_attempts m st :
  attempts (snd (_generate_with_model m st)) = attempts st.
Proof.
  unfold _generate_with_model.
  destruct (_ || _); [destruct (backend _ _) |]; reflexivity.
Qed.

Lemma track_best_attempts s q st : attempts (track_best s q st) = attempts st.
Proof. unfold track_best. destruct (Qlt_bool _ _); reflexivity. Qed.

Lemma primary_attempt_attempts st :
  attempts (fst (primary_attempt st)) = attempts st.
Proof.
  unfold primary_attempt.
  pose proof (generate_with_model_attempts (ai_model request) st) as H.
  destruct (_generate_with_model _ st) as [[summary | e] st1]; simpl in *; [| exact H].
  destruct (Qle_bool _ _); simpl; [now rewrite track_best_attempts |].
  destruct (_ <? _); simpl; now rewrite track_best_attempts.
Qed.

Lemma fallback_attempt_attempts st :
  attempts (fst (fallback_attempt st)) = attempts st.
Proof.
  unfold fallback_attempt.
  destruct (_ && _); [| reflexivity].
  pose proof (generate_with_model_attempts "local" st) as H.
  destruct (_generate_with_model _ st) as [[summary | e] st1]; simpl in *.
  - now rewrite track_best_attempts.
  - exact H.
Qed.

(** A pass that continues has used one attempt and leaves budget. *)
Lemma loop_body_continue st st' :
  loop_body st = Continue st' ->
  attempts st' = attempts st + 1 /\ attempts st' < retry_attempts request.
Proof.
  unfold loop_body.
  pose proof (primary_attempt_attempts (incr_attempts st)) as Hp.
  destruct (primary_attempt _) as [st1 b1]; simpl in Hp.
  destruct b1; [discriminate |].
  pose proof (fallback_attempt_attempts st1) as Hf.
  destruct (fallback_attempt st1) as [st2 b2]; simpl in Hf.
  destruct b2; [discriminate |].
  destruct (Z.leb_spec (retry_attempts request) (attempts st2)); [discriminate |].
  intros [= <-]. split; [congruence | assumption].
Qed.

(** The [while] loop terminates: fuel beyond the remaining budget is never
    used up. *)
Lemma retry_loop_total fuel st :
  (Z.to_nat (retry_attempts request - attempts st) < fuel)%nat ->
  exists r, retry_loop fuel st = Some r.
Proof.
  revert st. induction fuel as [| fuel IH]; intros st Hfuel; [lia |].
  simpl. destruct (Z.ltb_spec (attempts st) (retry_attempts request)) as [Hlt | Hge].
  - destruct (loop_body st) as [st' | st' | e st'] eqn:Hbody; eauto.
    apply loop_body_continue in Hbody as [Hatt _].
    apply IH. rewrite Hatt. lia.
  - eauto.
Qed.

Lemma generate_summary_total : exists r, generate_summary = Some r.
Proof.
  unfold generate_summary, generate_summary_fuel.
  destruct (retry_loop_total loop_fuel initial_state) as [[[st | e] st'] Hr].
  - unfold loop_fuel. simpl. lia.
  - rewrite Hr. eauto.
  - rewrite Hr. eauto.
Qed.

(** [track_best] keeps the maximum of the scores seen. *)
Lemma track_best_ge s q st : (q <= best_score (track_best s q st))%Q.
Proof.
  unfold track_best. destruct (Qlt_bool _ _) eqn:E; simpl.
  - apply Qle_refl.
  - apply Qnot_lt_le. intros H. apply Qlt_bool_iff in H. congruence.
Qed.

Lemma track_best_mono s q st : (best_score st <= best_score (track_best s q st))%Q.
Proof.
  unfold track_best. destruct (Qlt_bool _ _) eqn:E; simpl.
  - apply Qlt_le_weak, Qlt_bool_iff, E.
  - apply Qle_refl.
Qed.

(** Leaving the loop through [break] means the threshold was reached. *)
Lemma primary_attempt_break st st' :
  primary_attempt st = (st', true) ->
  (semantic_threshold request <= best_score st')%Q.
Proof.
  unfold primary_attempt.
  destruct (_generate_with_model _ st) as [[summary | e] st1]; [| discriminate].
  destruct (Qle_bool _ _) eqn:Hthr.
  - intros [= <-]. apply Qle_bool_iff in Hthr.
    eapply Qle_trans; [exact Hthr | apply track_best_ge].
  - destruct (_ <? _); discriminate.
Qed.

Lemma fallback_attempt_break st st' :
  fallback_attempt st = (st', true) ->
  (semantic_threshold request <= best_score st')%Q.
Proof.
  unfold fallback_attempt.
  destruct (_ && _); [| discriminate].
  destruct (_generate_with_model _ st) as [[summary | e] st1]; [| discriminate].
  intros [= <- Hthr]. apply Qle_bool_iff in Hthr.
  eapply Qle_trans; [exact Hthr | apply track_best_ge].
Qed.

Lemma loop_body_break st st' :
  loop_body st = Break st' ->
  (semantic_threshold request <= best_score st')%Q.
Proof.
  unfold loop_body.
  destruct (primary_attempt _) as [st1 [|]] eqn:Hp.
  - intros [= <-]. eapply primary_attempt_break, Hp.
  - destruct (fallback_attempt _) as [st2 [|]] eqn:Hf.
    + intros [= <-]. eapply fallback_attempt_break, Hf.
    + destruct (_ <=? _); discriminate.
Qed.

(** The only exception the loop itself produces is the one of the bare
    [raise]. *)
Lemma loop_body_raised st e st' :
  loop_body st = Raised e st' ->
  e = RuntimeError "No active exception to reraise"
  /\ retry_attempts request <= attempts st'.
Proof.
  unfold loop_body.
  destruct (primary_attempt _) as [st1 [|]]; [discriminate |].
  destruct (fallback_attempt _) as [st2 [|]]; [discriminate |].
  destruct (Z.leb_spec (retry_attempts request) (attempts st2)); [| discriminate].
  intros [= <- <-]. split; [reflexivity | assumption].
Qed.

Lemma retry_loop_ok fuel st st' st'' :
  attempts st < retry_attempts request ->
  retry_loop fuel st = Some (Ok st', st'') ->
  (semantic_threshold request <= best_score st')%Q.
Proof.
  revert st. induction fuel as [| fuel IH]; intros st Hlt; [discriminate |].
  simpl. destruct (Z.ltb_spec (attempts st) (retry_attempts request)); [| lia].
  destruct (loop_body st) as [st1 | st1 | e st1] eqn:Hbody.
  - apply loop_body_continue in Hbody as [_ Hlt']. now apply IH.
  - intros [= <- <-]. now apply loop_body_break in Hbody.
  - discriminate.
Qed.

Lemma retry_loop_raise fuel st e st' :
  retry_loop fuel st = Some (Raise e, st') ->
  e = RuntimeError "No active exception to reraise".
Proof.
  revert st. induction fuel as [| fuel IH]; intros st; [discriminate |].
  simpl. destruct (_ <? _); [| discriminate].
  destruct (loop_body st) as [st1 | st1 | e1 st1] eqn:Hbody.
  - apply IH.
  - discriminate.
  - intros [= <- <-]. now apply loop_body_raised in Hbody as [-> _].
Qed.

(** With a budget of at least one attempt, the final check of
    [generate_summary] never fires: the loop is left through [break], with
    the threshold reached, or through the bare [raise]. *)
Lemma generate_summary_no_threshold_error thr n q st :
  1 <= retry_attempts request ->
  generate_summary <> Some (Raise (SemanticThresholdError thr n q), st).
Proof.
  intros Hbudget. unfold generate_summary, generate_summary_fuel.
  destruct (retry_loop loop_fuel initial_state) as [[[st1 | e] st2] |] eqn:Hloop;
    [| | discriminate].
  - apply retry_loop_ok in Hloop; [| simpl; lia].
    unfold build_response.
    destruct (Qlt_bool _ _) eqn:Hlt.
    + apply Qlt_bool_iff in Hlt. now apply Qlt_not_le in Hlt.
    + destruct (refused_fields st1), (request_id request); discriminate.
  - apply retry_loop_raise in Hloop as ->. discriminate.
Qed.

(** *** The log of backend invocations *)

Lemma track_best_calls s q st : calls (track_best s q st) = calls st.
Proof. unfold track_best. destruct (Qlt_bool _ _); reflexivity. Qed.

Lemma primary_attempt_calls st :
  calls (fst (primary_attempt st)) = calls st
  \/ calls (fst (primary_attempt st)) = calls st ++ [ai_model request].
Proof.
  unfold primary_attempt, _generate_with_model.
  destruct (_ || _); [| now left].
  destruct (backend _ _) as [summary |]; [| now right].
  destruct (Qle_bool _ _); simpl; [rewrite track_best_calls; now right |].
  destruct (_ <? _); simpl; rewrite track_best_calls; now right.
Qed.

Lemma fallback_attempt_calls st :
  calls (fst (fallback_attempt st)) = calls st
  \/ (attempts st = 1 /\ calls (fst (fallback_attempt st)) = calls st ++ ["local"]).
Proof.
  unfold fallback_attempt.
  destruct (negb _); simpl; [| now left].
  destruct (Z.eqb_spec (attempts st) 1) as [Hone |]; [| now left].
  right. split; [assumption |].
  unfold _generate_with_model. simpl.
  destruct (backend _ _); simpl; [now rewrite track_best_calls | reflexivity].
Qed.

(** The fallback backend is invoked in the first pass only. *)
Lemma loop_body_local_calls st :
  ai_model request <> "local" ->
  (attempts st = 0 /\ local_calls st = 0%nat)
  \/ (1 <= attempts st /\ (local_calls st <= 1)%nat) ->
  1 <= attempts (flow_state (loop_body st))
  /\ (local_calls (flow_state (loop_body st)) <= 1)%nat.
Proof.
  intros Hmodel Hinv. unfold loop_body.
  pose proof (primary_attempt_attempts (incr_attempts st)) as Hpa.
  pose proof (primary_attempt_calls (incr_attempts st)) as Hpc.
  destruct (primary_attempt _) as [st1 b1]. simpl in Hpa, Hpc.
  assert (Hl1 : local_calls st1 = local_calls st).
  { unfold local_calls. destruct Hpc as [-> | ->]; [reflexivity |].
    rewrite count_occ_app. simpl.
    destruct (String.string_dec _ _); [congruence | lia]. }
  destruct b1; simpl; [lia |].
  pose proof (fallback_attempt_attempts st1) as Hfa.
  pose proof (fallback_attempt_calls st1) as Hfc.
  destruct (fallback_attempt st1) as [st2 b2]. simpl in Hfa, Hfc.
  assert (Hl2 : 1 <= attempts st2 /\ (local_calls st2 <= 1)%nat).
  { split; [lia |]. unfold local_calls in *.
    destruct Hfc as [-> | [Hone ->]]; [lia |].
    rewrite count_occ_app. simpl. lia. }
  destruct b2; simpl; [exact Hl2 |].
  destruct (_ <=? _); simpl; exact Hl2.
Qed.

Lemma retry_loop_local_calls fuel st r st' :
  ai_model request <> "local" ->
  (attempts st = 0 /\ local_calls st = 0%nat)
  \/ (1 <= attempts st /\ (local_calls st <= 1)%nat) ->
  retry_loop fuel st = Some (r, st') ->
  (local_calls st' <= 1)%nat.
Proof.
  intros Hmodel. revert st.
  induction fuel as [| fuel IH]; intros st Hinv; [discriminate |].
  simpl. destruct (_ <? _).
  - pose proof (loop_body_local_calls st Hmodel Hinv) as Hbody.
    destruct (loop_body st) as [st1 | st1 | e st1]; simpl in Hbody.
    + apply IH. now right.
    + intros [= <- <-]. apply Hbody.
    + intros [= <- <-]. apply Hbody.
  - intros [= <- <-]. destruct Hinv as [[_ ->] | [_ H]]; lia.
Qed.

(** At most one invocation of the fallback backend per request. *)
Lemma generate_summary_fallback_once r st :
  ai_model request <> "local" ->
  generate_summary = Some (r, st) ->
  (local_calls st <= 1)%nat.
Proof.
  intros Hmodel. unfold generate_summary, generate_summary_fuel.
  destruct (retry_loop _ _) as [[[st1 | e] st2] |] eqn:Hloop; [| | discriminate];
    intros [= <- <-];
    eapply retry_loop_local_calls; eauto; now left.
Qed.

End Run.

(** *** Concrete runs

    The inputs of tests/test_pipeline.py: the [sample_request] fixture
    (threshold 0.8, model "openai") with the budget each test sets, a
    primary backend that is patched to succeed, and the fixture's local
    model, a bare [Mock] on which [_generate_local] fails. *)

Definition percent (n : Z) : Q := (n # 100)%Q.

Definition sample_request (model : string) (budget : Z) : SummarizationRequest :=
  {| text_blob := "This is a sample text that needs to be summarized.";
     semantic_threshold := percent 80;
     ai_model := model;
     api_token := None;
     max_summary_length := 200;
     summary_ratio := percent 30;
     retry_attempts := budget;
     request_id := Some "req-1" |}.

(** Three texts with the engineered scores 0.7, 0.75, 0.92; any other
    text scores 0.5. *)
Definition engineered_similarity (_ summary : string) : Q :=
  if bool_decide (summary = "first summary") then percent 70
  else if bool_decide (summary = "second summary") then percent 75
  else if bool_decide (summary = "third summary") then percent 92
  else percent 50.

(** The [k]-th successful text of a stub backend. *)
Definition stub_text (k : nat) : string :=
  match k with
  | O => "first summary"
  | 1%nat => "second summary"
  | _ => "third summary"
  end.

(** The primary backend always succeeds, with the three texts in order;
    the local backend always fails. *)
Definition primary_succeeds_local_fails (model : string) (n : nat) : option string :=
  if bool_decide (model = "local") then None
  else Some (stub_text (match n with O => 0 | S m => m end)%nat).

(** One stub serving every invocation, whichever the model type. *)
Definition shared_stub (_ : string) (n : nat) : option string :=
  Some (stub_text n).

(** The primary backend succeeds below the threshold, then fails once,
    then succeeds; the local backend fails. *)
Definition primary_fails_second (model : string) (n : nat) : option string :=
  if bool_decide (model = "local") then None
  else match n with
       | O => Some "first summary"
       | 2%nat => None
       | _ => Some "third summary"
       end.

(** A primary backend whose text always scores 0.5; the local model
    fails. *)
Definition poor_backend (model : string) (_ : nat) : option string :=
  if bool_decide (model = "local") then None else Some "Poor summary".

(** When the requested backend is the local one, three attempts scoring
    0.7, 0.75, 0.92 against threshold 0.8 give the third text, two retries,
    [partial_success] and two warnings. *)
Lemma three_attempts_on_local_backend backend similarity req id t1 t2 t3 :
  ai_model req = "local" ->
  request_id req = Some id ->
  retry_attempts req = 3 ->
  semantic_threshold req = percent 80 ->
  backend "local" 0%nat = Some t1 ->
  backend "local" 1%nat = Some t2 ->
  backend "local" 2%nat = Some t3 ->
  similarity (text_blob req) t1 = percent 70 ->
  similarity (text_blob req) t2 = percent 75 ->
  similarity (text_blob req) t3 = percent 92 ->
  exists resp st,
    generate_summary backend similarity req = Some (Ok resp, st)
    /\ refined_text resp = t3
    /\ retry_count resp = 2
    /\ resp_status resp = partial_success
    /\ length (resp_warnings resp) = 2%nat.
Proof.
  intros Hmodel Hid Hbudget Hthr H1 H2 H3 S1 S2 S3.
  destruct req as [text thr model tok maxlen ratio budget rid].
  simpl in *. subst model rid budget thr.
  unfold generate_summary, generate_summary_fuel, loop_fuel. simpl.
  unfold loop_body at 1.
  unfold primary_attempt, fallback_attempt, _generate_with_model. simpl.
  rewrite H1. simpl. rewrite S1. simpl.
  unfold loop_body at 1.
  unfold primary_attempt, fallback_attempt, _generate_with_model. simpl.
  rewrite H2. simpl. rewrite S2. simpl.
  unfold loop_body at 1.
  unfold primary_attempt, fallback_attempt, _generate_with_model. simpl.
  rewrite H3. simpl. rewrite S3. simpl.
  eexists _, _. repeat split.
Qed.

(** C1. The input of [test_semantic_threshold_not_met_failure]: budget 2,
    every summary scores 0.5 against threshold 0.8. Both attempts are used
    up and the best score stays below the threshold, yet what leaves
    [generate_summary] is the [RuntimeError] of the bare [raise] at the end
    of the loop body, not [SemanticThresholdError]. *)
Theorem C1_exhausted_budget_raises_runtime_error :
  exists st,
    generate_summary poor_backend engineered_similarity (sample_request "openai" 2)
    = Some (Raise (RuntimeError "No active exception to reraise"), st)
    /\ attempts st = retry_attempts (sample_request "openai" 2)
    /\ (best_score st < semantic_threshold (sample_request "openai" 2))%Q.
Proof. eexists. split; [vm_compute; reflexivity |]. split; reflexivity. Qed.

(** C2. The fallback backend is invoked in the first pass whenever that
    pass did not reach the threshold, primary failure or not: on the input
    of [test_semantic_threshold_retry_logic] no primary invocation fails,
    and the local backend is invoked right after the first one; and when
    the first primary failure comes in the second pass, no invocation of the
    local backend follows it. *)
Theorem C2_fallback_not_tied_to_primary_failure :
  (forall n, primary_succeeds_local_fails "openai" n <> None)
  /\ (exists r st,
        generate_summary primary_succeeds_local_fails engineered_similarity
          (sample_request "openai" 3) = Some (r, st)
        /\ calls st = ["openai"; "local"; "openai"; "openai"])
  /\ primary_fails_second "openai" 2%nat = None
  /\ (exists r st,
        generate_summary primary_fails_second engineered_similarity
          (sample_request "openai" 4) = Some (r, st)
        /\ calls st = ["openai"; "local"; "openai"; "openai"]).
Proof.
  split; [intros n; discriminate |].
  split; [eexists _, _; split; vm_compute; reflexivity |].
  split; [reflexivity |].
  eexists _, _; split; vm_compute; reflexivity.
Qed.

(** C5. The input of [test_semantic_threshold_retry_logic]: model
    "openai", budget 3, threshold 0.8, primary texts scoring 0.7, 0.75,
    0.92. The response carries the third text, [retry_count] 2 and
    [partial_success], but three warnings: the fallback block of the first
    pass adds one between the two threshold warnings. *)
Theorem C5_three_attempts_openai_three_warnings :
  exists resp st,
    generate_summary primary_succeeds_local_fails engineered_similarity
      (sample_request "openai" 3) = Some (Ok resp, st)
    /\ refined_text resp = "third summary"
    /\ retry_count resp = 2
    /\ resp_status resp = partial_success
    /\ resp_warnings resp =
         [AttemptBelowThreshold 1 (percent 70) (percent 80);
          LocalFallbackFailed;
          AttemptBelowThreshold 2 (percent 75) (percent 80)].
Proof. eexists _, _. split; [vm_compute; reflexivity |]. repeat split. Qed.

(** When the stub also serves the fallback invocation, the fallback
    consumes the second text and the run ends one attempt earlier. *)
Example three_texts_shared_stub :
  exists resp st,
    generate_summary shared_stub engineered_similarity
      (sample_request "openai" 3) = Some (Ok resp, st)
    /\ refined_text resp = "third summary"
    /\ retry_count resp = 1
    /\ model_used resp = "local"
    /\ length (resp_warnings resp) = 2%nat.
Proof. eexists _, _. split; [vm_compute; reflexivity |]. repeat split. Qed.

End Pipeline.

(** ** The semantic scorer (text-summarization/pipeline.py) *)

Module Scorer.

Local Open Scope Q_scope.

(** A Python [float]: a finite value (every finite double is a rational),
    an infinity, or NaN. *)
Inductive pyfloat : Type :=
| Finite (x : Q)
| PosInf
| NegInf
| NaN.

(** [a < b] on floats; every comparison with NaN is false. *)
Definition py_lt (a b : pyfloat) : bool :=
  match a, b with
  | NaN, _ | _, NaN => false
  | Finite x, Finite y => Qlt_bool x y
  | NegInf, NegInf => false
  | NegInf, _ => true
  | _, NegInf => false
  | PosInf, _ => false
  | Finite _, PosInf => true
  end.

(** The builtins [min(a, b)] and [max(a, b)]: the first argument is kept
    unless the second is strictly smaller (larger). *)
Definition py_min (a b : pyfloat) : pyfloat := if py_lt b a then b else a.
Definition py_max (a b : pyfloat) : pyfloat := if py_lt a b then b else a.

(** [max(0.0, min(1.0, float(similarity)))] *)
Definition clip (similarity : pyfloat) : pyfloat :=
  py_max (Finite 0) (py_min (Finite 1) similarity).

Section Model.

(** The embedding model and numpy. [sentence_transformer] is the
    attribute of the pipeline ([None] when it was not initialised); its
    [encode] maps the list of texts to the rows of an array, or raises
    ([None]). [np_dot] and [np_linalg_norm] are [np.dot] and
    [np.linalg.norm] on two rows and on one; [fmul] and [fdiv] are [*] and
    [/] on the floating-point scalars numpy returns, whose quotient by zero
    is an infinity or NaN. Each of them is a float unless it raises
    ([None]). *)
Variable embedding : Type.
Variable sentence_transformer : option (list string -> option (list embedding)).
Variable np_dot : embedding -> embedding -> option pyfloat.
Variable np_linalg_norm : embedding -> option pyfloat.
Variable fmul fdiv : pyfloat -> pyfloat -> option pyfloat.

(** [np.dot(e0, e1) / (np.linalg.norm(e0) * np.linalg.norm(e1))] *)
Definition cosine (e0 e1 : embedding) : option pyfloat :=
  d ← np_dot e0 e1;
  n0 ← np_linalg_norm e0;
  n1 ← np_linalg_norm e1;
  p ← fmul n0 n1;
  fdiv d p.

(** The [try] block of [_calculate_semantic_similarity]; [None] when an
    exception is raised inside it. *)
Definition try_similarity (text1 text2 : string) : option pyfloat :=
  encode ← sentence_transformer;
  embeddings ← encode [text1; text2];
  e0 ← embeddings !! 0%nat;
  e1 ← embeddings !! 1%nat;
  similarity ← cosine e0 e1;
  Some (clip similarity).

(** [_calculate_semantic_similarity]: the [except Exception] handler
    returns the default score. *)
Definition _calculate_semantic_similarity (text1 text2 : string) : pyfloat :=
  match try_similarity text1 text2 with
  | Some similarity => similarity
  | None => Finite (1 # 2)
  end.

(** Clipping always yields a finite value between 0 and 1, NaN and the
    infinities included. *)
Lemma clip_range s : exists x, clip s = Finite x /\ 0 <= x <= 1.
Proof.
  unfold clip, py_min, py_max.
  destruct s as [x | | |]; simpl.
  - destruct (Qlt_bool x 1) eqn:H1; simpl.
    + destruct (Qlt_bool 0 x) eqn:H0.
      * exists x. apply Qlt_bool_iff in H1, H0. split; [reflexivity | lra].
      * exists 0. split; [reflexivity | lra].
    + exists 1. split; [reflexivity | lra].
  - exists 1. split; [reflexivity | lra].
  - exists 0. split; [reflexivity | lra].
  - exists 1. split; [reflexivity | lra].
Qed.

(** What clipping does to a finite value. *)
Lemma clip_finite c :
  (c <= 0 -> clip (Finite c) = Finite 0)
  /\ (0 < c < 1 -> clip (Finite c) = Finite c)
  /\ (1 <= c -> clip (Finite c) = Finite 1).
Proof.
  unfold clip, py_min, py_max. simpl.
  destruct (Qlt_bool c 1) eqn:H1; simpl;
    [destruct (Qlt_bool 0 c) eqn:H0 |];
    repeat split; intros H; try reflexivity; exfalso.
  - apply Qlt_bool_iff in H0. lra.
  - apply Qlt_bool_iff in H1. lra.
  - apply not_true_iff_false in H0. apply H0, Qlt_bool_iff. lra.
  - apply Qlt_bool_iff in H1. lra.
  - apply not_true_iff_false in H1. apply H1, Qlt_bool_iff. lra.
  - apply not_true_iff_false in H1. apply H1, Qlt_bool_iff. lra.
Qed.

(** Clipping never takes a value below a bound that is at most 1 and at
    most the value. *)
Lemma clip_lower_bound c t x :
  clip (Finite c) = Finite x -> t <= c -> t <= 1 -> t <= x.
Proof.
  intros Hclip Hc H1.
  destruct (clip_finite c) as (Hlow & Hmid & Hhigh).
  destruct (Qlt_le_dec 0 c) as [Hpos | Hneg].
  - destruct (Qlt_le_dec c 1) as [Hlt | Hge].
    + rewrite Hmid in Hclip by lra. injection Hclip as <-. exact Hc.
    + rewrite Hhigh in Hclip by exact Hge. injection Hclip as <-. exact H1.
  - rewrite Hlow in Hclip by exact Hneg. injection Hclip as <-. lra.
Qed.

(** The quotient of the self-cosine under rounding: when the squared
    norm exceeds the dot product by a factor of at most [1 + eta], the
    product of the norms is rounded up by a factor of at most [1 + u] and
    the quotient is rounded down by a factor of at least [1 - u], the
    quotient is at least [1 - (2u + eta)]. *)
Lemma self_quotient_bound s n p q u eta :
  0 < s -> 0 < p -> 0 <= u -> 0 <= eta ->
  n * n <= (1 + eta) * s ->
  p <= (1 + u) * (n * n) ->
  (1 - u) * s <= q * p ->
  0 < 1 - (2 * u + eta) ->
  1 - (2 * u + eta) <= q.
Proof.
  intros Hs Hp Hu Heta Hnorm Hprod Hquot Ht.
  assert (Hp' : p <= (1 + u) * (1 + eta) * s) by nra.
  apply Qnot_lt_le. intros Hq.
  assert (H1 : q * p < (1 - (2 * u + eta)) * p) by nra.
  assert (H2 : (1 - (2 * u + eta)) * p
               <= (1 - (2 * u + eta)) * ((1 + u) * (1 + eta) * s)) by nra.
  assert (H3 : (1 - (2 * u + eta)) * ((1 + u) * (1 + eta)) <= 1 - u) by nra.
  assert (H4 : (1 - (2 * u + eta)) * ((1 + u) * (1 + eta) * s) <= (1 - u) * s)
    by nra.
  lra.
Qed.

(** C9. The scorer has no exceptional outcome and returns a finite
    value in [0, 1] for every pair of texts. When the encoder and numpy
    succeed, the value is the quotient clipped: 0 for a quotient of at most
    0 or minus infinity, 1 for a quotient of at least 1, plus infinity or
    NaN, and the quotient itself in between. When anything in the [try]
    block raises (no model, [encode] raising or returning fewer than two
    rows, numpy raising), the value is exactly 0.5. A text scored against
    itself, when both of its rows are the same vector with a positive dot
    product, gets a value between [1 - (2u + eta)] and 1, where [u] bounds
    the rounding of the product and of the quotient and [eta] the excess of
    the squared norm over the dot product. *)
Theorem C9_scorer_range_default_and_self_similarity text1 text2 :
  (exists x, _calculate_semantic_similarity text1 text2 = Finite x
             /\ 0 <= x <= 1)
  /\ (forall encode rows e0 e1 d n0 n1 p similarity,
        sentence_transformer = Some encode ->
        encode [text1; text2] = Some rows ->
        rows !! 0%nat = Some e0 -> rows !! 1%nat = Some e1 ->
        np_dot e0 e1 = Some d ->
        np_linalg_norm e0 = Some n0 -> np_linalg_norm e1 = Some n1 ->
        fmul n0 n1 = Some p -> fdiv d p = Some similarity ->
        (forall c, similarity = Finite c ->
           (c <= 0 -> _calculate_semantic_similarity text1 text2 = Finite 0)
           /\ (0 < c < 1 ->
               _calculate_semantic_similarity text1 text2 = Finite c)
           /\ (1 <= c -> _calculate_semantic_similarity text1 text2 = Finite 1))
        /\ (similarity = NegInf ->
            _calculate_semantic_similarity text1 text2 = Finite 0)
        /\ (similarity = PosInf \/ similarity = NaN ->
            _calculate_semantic_similarity text1 text2 = Finite 1))
  /\ (sentence_transformer = None
      \/ (exists encode,
            sentence_transformer = Some encode
            /\ (encode [text1; text2] = None
                \/ exists rows,
                     encode [text1; text2] = Some rows
                     /\ (rows !! 0%nat = None \/ rows !! 1%nat = None
                         \/ exists e0 e1,
                              rows !! 0%nat = Some e0 /\ rows !! 1%nat = Some e1
                              /\ cosine e0 e1 = None))) ->
      _calculate_semantic_similarity text1 text2 = Finite (1 # 2))
  /\ (forall encode e rows s n p q u eta,
        sentence_transformer = Some encode ->
        encode [text1; text1] = Some (e :: e :: rows) ->
        np_dot e e = Some (Finite s) ->
        np_linalg_norm e = Some (Finite n) ->
        fmul (Finite n) (Finite n) = Some (Finite p) ->
        fdiv (Finite s) (Finite p) = Some (Finite q) ->
        0 < s -> 0 < p -> 0 <= u -> 0 <= eta ->
        n * n <= (1 + eta) * s ->
        p <= (1 + u) * (n * n) ->
        (1 - u) * s <= q * p ->
        exists x, _calculate_semantic_similarity text1 text1 = Finite x
                  /\ 1 - (2 * u + eta) <= x <= 1).
Proof.
  split; [| split; [| split]].
  - unfold _calculate_semantic_similarity, try_similarity.
    destruct sentence_transformer as [encode |]; simpl;
      [| exists (1 # 2); split; [reflexivity | lra]].
    destruct (encode [text1; text2]) as [rows |]; simpl;
      [| exists (1 # 2); split; [reflexivity | lra]].
    destruct (rows !! 0%nat) as [e0 |]; simpl;
      [| exists (1 # 2); split; [reflexivity | lra]].
    destruct (rows !! 1%nat) as [e1 |]; simpl;
      [| exists (1 # 2); split; [reflexivity | lra]].
    destruct (cosine e0 e1) as [similarity |]; simpl;
      [apply clip_range | exists (1 # 2); split; [reflexivity | lra]].
  - intros encode rows e0 e1 d n0 n1 p similarity Hst Henc H0 H1 Hd Hn0 Hn1 Hp Hq.
    assert (Hscore : _calculate_semantic_similarity text1 text2 = clip similarity).
    { unfold _calculate_semantic_similarity, try_similarity, cosine.
      rewrite Hst. simpl. rewrite Henc. simpl. rewrite H0, H1. simpl.
      rewrite Hd. simpl. rewrite Hn0, Hn1. simpl. rewrite Hp. simpl.
      rewrite Hq. reflexivity. }
    rewrite Hscore. split; [| split].
    + intros c ->. apply clip_finite.
    + intros ->. reflexivity.
    + intros [-> | ->]; reflexivity.
  - unfold _calculate_semantic_similarity, try_similarity.
    intros [Hst | (encode & Hst & Henc)]; rewrite Hst; simpl; [reflexivity |].
    destruct Henc as [Henc | (rows & Henc & Hrows)]; rewrite Henc; simpl;
      [reflexivity |].
    destruct Hrows as [H0 | [H1 | (e0 & e1 & H0 & H1 & Hcos)]].
    + rewrite H0. reflexivity.
    + destruct (rows !! 0%nat); simpl; [rewrite H1 |]; reflexivity.
    + rewrite H0. simpl. rewrite H1. simpl. rewrite Hcos. reflexivity.
  - intros encode e rows s n p q u eta Hst Henc Hd Hn Hp Hq
      Hs Hpp Hu Heta Hnorm Hprod Hquot.
    assert (Hscore : _calculate_semantic_similarity text1 text1 = clip (Finite q)).
    { unfold _calculate_semantic_similarity, try_similarity, cosine.
      rewrite Hst. simpl. rewrite Henc. simpl.
      rewrite Hd. simpl. rewrite Hn. simpl. rewrite Hp. simpl.
      rewrite Hq. reflexivity. }
    rewrite Hscore.
    destruct (clip_range (Finite q)) as (x & Hclip & Hx0 & Hx1).
    exists x. split; [exact Hclip |]. split; [| exact Hx1].
    destruct (Qlt_le_dec 0 (1 - (2 * u + eta))) as [Ht | Ht]; [| lra].
    apply (clip_lower_bound q); [exact Hclip | | lra].
    now apply (self_quotient_bound s n p q u eta).
Qed.

End Model.

(** *** A stub model

    Embeddings are vectors of one integer coordinate, and [encode] fails
    on an empty text. The stub [np.dot] is exact, the stub norm is rounded
    up by one millionth, and the product and the quotient are exact, with
    the IEEE values for a zero divisor. *)

Definition stub_encode (texts : list string) : option (list Z) :=
  if existsb (fun text => bool_decide (text = "")) texts then None
  else Some (map (fun text => Z.of_nat (String.length text)) texts).

Definition stub_dot (e0 e1 : Z) : option pyfloat :=
  Some (Finite (inject_Z (e0 * e1))).

Definition stub_norm (e : Z) : option pyfloat :=
  Some (Finite (inject_Z (Z.abs e) * (1000001 # 1000000))).

Definition stub_fmul (a b : pyfloat) : option pyfloat :=
  match a, b with
  | Finite x, Finite y => Some (Finite (x * y))
  | _, _ => Some NaN
  end.

Definition stub_fdiv (a b : pyfloat) : option pyfloat :=
  match a, b with
  | Finite x, Finite y =>
      if Qeq_bool y 0
      then Some (if Qeq_bool x 0 then NaN
                 else if Qlt_bool 0 x then PosInf else NegInf)
      else Some (Finite (x / y))
  | _, _ => Some NaN
  end.

Definition stub_score : string -> string -> pyfloat :=
  _calculate_semantic_similarity Z (Some stub_encode) stub_dot stub_norm
    stub_fmul stub_fdiv.

Example scorer_failure_default :
  _calculate_semantic_similarity Z None stub_dot stub_norm stub_fmul stub_fdiv
    "a text" "summary" = Finite (1 # 2)
  /\ stub_score "a text" "" = Finite (1 # 2).
Proof. split; reflexivity. Qed.

Example clip_of_nan_and_infinities :
  clip NaN = Finite 1 /\ clip PosInf = Finite 1 /\ clip NegInf = Finite 0.
Proof. repeat split. Qed.

(** A quotient strictly inside the interval is returned as it is: vectors
    6 and 7 give 42 / (6.000006 * 7.000007). *)
Example stub_score_inside :
  exists x, stub_score "a text" "summary" = Finite x /\ 0 < x < 1.
Proof. eexists. split; [vm_compute; reflexivity |]. split; reflexivity. Qed.

Lemma C9_scorer_range_default_and_self_similarity_witness :
  exists x,
    stub_score "a text" "a text" = Finite x
    /\ 1 - (2 * 0 + (2000001 # 1000000000000)) <= x <= 1.
Proof.
  destruct (C9_scorer_range_default_and_self_similarity Z (Some stub_encode)
              stub_dot stub_norm stub_fmul stub_fdiv "a text" "a text")
    as (_ & _ & _ & Hself).
  apply (Hself stub_encode 6%Z [] 36 (6000006 # 1000000)
           ((6000006 # 1000000) * (6000006 # 1000000))
           (36 / ((6000006 # 1000000) * (6000006 # 1000000)))).
  - reflexivity.
  - reflexivity.
  - reflexivity.
  - reflexivity.
  - reflexivity.
  - reflexivity.
  - reflexivity.
  - reflexivity.
  - vm_compute. discriminate.
  - vm_compute. discriminate.
  - vm_compute. discriminate.
  - vm_compute. discriminate.
  - vm_compute. discriminate.
Defined.

End Scorer.

(** ** JWKS cache and token validation (context-service/auth.py) *)

Module Auth.

Local Open Scope Q_scope.

(** The exceptions that occur in auth.py: the module's own two, the
    [TypeError] and [AttributeError] Python raises for an operation a value
    does not support, and [OtherException] for an exception of any other
    class that comes out of the HTTP client. *)
Inductive exn : Type :=
| JWKSError (msg : string)
| JWTValidationError (msg : string)
| TypeError
| AttributeError
| OtherException (name : string).

Inductive result (A : Type) : Type :=
| Ok (a : A)
| Raise (e : exn).
Arguments Ok {A} a.
Arguments Raise {A} e.

(** A JSON value as far as [get_jwks] and [_validate_payload] look into
    it. *)
Inductive json : Type :=
| JNull
| JBool (b : bool)
| JNum (x : Q)
| JStr (s : string)
| JStrList (l : list string)
| JObject.

(** Python truthiness. *)
Definition truthy (v : json) : bool :=
  match v with
  | JNull => false
  | JBool b => b
  | JNum x => negb (Qeq_bool x 0)
  | JStr s => negb (bool_decide (s = ""))
  | JStrList l => match l with [] => false | _ => true end
  | JObject => true
  end.

(** A JSON object of the [keys] array. [key.get("kid")] is [None] when
    the object has no [kid]. *)
Record jwk : Type := {
  jwk_kid : option string;
  jwk_kty : string;
  jwk_alg : option string;
  jwk_material : string
}.

(** One value of the [keys] array: a JSON object, or any other JSON
    value, which has no [get] method. *)
Inductive jwks_entry : Type :=
| KeyObject (key : jwk)
| NotADict.

(** A key set all of whose entries are objects. *)
Definition objects (ks : list jwk) : list jwks_entry := map KeyObject ks.

(** The body of a 200 reply that is valid JSON but not an object. *)
Inductive non_object : Type :=
| BodyNull
| BodyBool (b : bool)
| BodyNumber (x : Q)
| BodyString (s : string)
| BodyArray (items : list json).

(** What [self._client.get(url)], [raise_for_status()] and [json()]
    produce for one request to the JWKS endpoint: one of the three
    exceptions the handlers of [get_jwks] name, an exception of another
    class ([OtherError]), or the body of a 200 reply. For a body that is an
    object, [MissingKeysField] says that it has no member [keys],
    [KeysNotAnArray] that the member is not an array, and [Keys ks] that it
    is the array [ks]. *)
Inductive http_outcome : Type :=
| RequestError
| HTTPStatusError (status_code : Z)
| JSONDecodeError
| OtherError (name : string)
| NotAnObject (body : non_object)
| MissingKeysField
| KeysNotAnArray
| Keys (ks : list jwks_entry).

(** [JWKSManager]. [_keys_cache] is [None] for the empty dict of
    [__init__] (falsy) and [Some ks] for a cached document with key list
    [ks]. [fetches] and [clock_reads] count the requests sent to the
    endpoint and the readings of [time.time()]. *)
Record JWKSManager : Type := {
  cache_ttl : Z;
  _keys_cache : option (list jwks_entry);
  _cache_timestamp : Q;
  fetches : nat;
  clock_reads : nat
}.

Definition new_manager (ttl : Z) : JWKSManager :=
  {| cache_ttl := ttl; _keys_cache := None; _cache_timestamp := 0;
     fetches := 0; clock_reads := 0 |}.

(** The header of a token as [jwt.get_unverified_header] returns it. *)
Record jose_header : Type := {
  hdr_kid : option string;
  hdr_alg : option string
}.

(** The outcomes of [jwt.decode] that [validate_token] tells apart. *)
Inductive decode_outcome : Type :=
| ExpiredSignatureError
| JWTClaimsError
| JWTError
| Decoded (payload : gmap string json).

Section World.

(** [endpoint n]: the answer to the [n]-th request sent to the JWKS
    endpoint; [clock n]: the [n]-th reading of [time.time()]. *)
Variable endpoint : nat -> http_outcome.
Variable clock : nat -> Q.

Definition tick (m : JWKSManager) : JWKSManager :=
  {| cache_ttl := cache_ttl m; _keys_cache := _keys_cache m;
     _cache_timestamp := _cache_timestamp m; fetches := fetches m;
     clock_reads := S (clock_reads m) |}.

Definition count_fetch (m : JWKSManager) : JWKSManager :=
  {| cache_ttl := cache_ttl m; _keys_cache := _keys_cache m;
     _cache_timestamp := _cache_timestamp m; fetches := S (fetches m);
     clock_reads := clock_reads m |}.

Definition store (ks : list jwks_entry) (now : Q) (m : JWKSManager)
  : JWKSManager :=
  {| cache_ttl := cache_ttl m; _keys_cache := Some ks;
     _cache_timestamp := now; fetches := fetches m;
     clock_reads := clock_reads m |}.

(** The cache test of [get_jwks]:
    [not force_refresh and self._keys_cache and
     (now - self._cache_timestamp) < self.cache_ttl]. *)
Definition cached_jwks (force_refresh : bool) (now : Q) (m : JWKSManager)
  : option (list jwks_entry) :=
  if force_refresh then None
  else match _keys_cache m with
       | Some ks =>
           if Qlt_bool (now - _cache_timestamp m) (inject_Z (cache_ttl m))
           then Some ks else None
       | None => None
       end.

(** ["keys" not in jwks_data] on a body that is not an object: the
    substring test on a string, the membership test on an array, and a
    [TypeError] ([None]) on null, a boolean or a number. *)
Definition lacks_keys (body : non_object) : option bool :=
  match body with
  | BodyString s => Some (negb (contains "keys" s))
  | BodyArray items =>
      Some (negb (existsb (fun item => match item with
                                       | JStr s => bool_decide (s = "keys")
                                       | _ => false
                                       end) items))
  | BodyNull | BodyBool _ | BodyNumber _ => None
  end.

(** The [try] block of [get_jwks]: one request, the structure checks, and
    the cache update. The handlers turn [RequestError], [HTTPStatusError]
    and [JSONDecodeError] into [JWKSError]; the [JWKSError] of a structure
    check and every other exception pass through them. On a string or an
    array that has ["keys"] in it, [jwks_data["keys"]] raises
    [TypeError]. *)
Definition fetch_jwks (now : Q) (m : JWKSManager)
  : result (list jwks_entry) * JWKSManager :=
  let m' := count_fetch m in
  match endpoint (fetches m) with
  | RequestError => (Raise (JWKSError "Failed to fetch JWKS"), m')
  | HTTPStatusError _ => (Raise (JWKSError "JWKS endpoint error"), m')
  | JSONDecodeError => (Raise (JWKSError "Invalid JWKS JSON response"), m')
  | OtherError name => (Raise (OtherException name), m')
  | NotAnObject body =>
      match lacks_keys body with
      | None => (Raise TypeError, m')
      | Some true =>
          (Raise (JWKSError "Invalid JWKS format: missing 'keys' field"), m')
      | Some false => (Raise TypeError, m')
      end
  | MissingKeysField =>
      (Raise (JWKSError "Invalid JWKS format: missing 'keys' field"), m')
  | KeysNotAnArray =>
      (Raise (JWKSError "Invalid JWKS format: 'keys' must be an array"), m')
  | Keys ks => (Ok ks, store ks now m')
  end.

(** [JWKSManager.get_jwks]. *)
Definition get_jwks (force_refresh : bool) (m : JWKSManager)
  : result (list jwks_entry) * JWKSManager :=
  let now := clock (clock_reads m) in
  match cached_jwks force_refresh now m with
  | Some ks => (Ok ks, tick m)
  | None => fetch_jwks now (tick m)
  end.

(** [for key in jwks["keys"]: if key.get("kid") == kid: return key].
    [Ok None] when the loop ends without a match; an entry that is not an
    object raises [AttributeError] when the loop reaches it. *)
Fixpoint find_kid (kid : string) (ks : list jwks_entry) : result (option jwk) :=
  match ks with
  | [] => Ok None
  | KeyObject key :: ks' =>
      if bool_decide (jwk_kid key = Some kid) then Ok (Some key)
      else find_kid kid ks'
  | NotADict :: _ => Raise AttributeError
  end.

(** [JWKSManager.get_key_by_kid]. *)
Definition get_key_by_kid (kid : string) (m : JWKSManager)
  : result (option jwk) * JWKSManager :=
  match get_jwks false m with
  | (Raise e, m1) => (Raise e, m1)
  | (Ok jwks, m1) =>
      match find_kid kid jwks with
      | Raise e => (Raise e, m1)
      | Ok (Some key) => (Ok (Some key), m1)
      | Ok None =>
          match get_jwks true m1 with
          | (Raise e, m2) => (Raise e, m2)
          | (Ok jwks', m2) => (find_kid kid jwks', m2)
          end
      end
  end.

(** The python-jose entry points [validate_token] calls:
    [jwt.get_unverified_header] ([None]: it raises [JWTError]),
    [jwk.construct] ([None]: it raises) and [jwt.decode], given the token,
    the key and the [algorithms] argument. *)
Variable public_key : Type.
Variable get_unverified_header : string -> option jose_header.
Variable jwk_construct : jwk -> option public_key.
Variable jose_decode : string -> public_key -> list string -> decode_outcome.

(** [algorithms=["RS256", "ES256"]] *)
Definition allowed_algorithms : list string := ["RS256"; "ES256"].

Definition check (b : bool) (msg : string) : result unit :=
  if b then Ok tt else Raise (JWTValidationError msg).

#[local] Instance result_ret : MRet result := fun A a => Ok a.
#[local] Instance result_bind : MBind result := fun A B k r =>
  match r with
  | Ok a => k a
  | Raise e => Raise e
  end.

Definition is_nonempty_str (v : option json) : bool :=
  match v with
  | Some (JStr s) => negb (bool_decide (s = ""))
  | _ => false
  end.

(** [v == s] for a string [s]. *)
Definition is_str (s : string) (v : option json) : bool :=
  match v with
  | Some (JStr t) => bool_decide (t = s)
  | _ => false
  end.

Definition option_truthy (v : option json) : bool :=
  match v with Some j => truthy j | None => false end.

(** [EnhancedJWTValidator._validate_payload]; [now] is the reading of
    [time.time()] made for the token-age check. *)
Definition _validate_payload (payload : gmap string json)
    (required_tenant_id : option string) (required_scopes : option (list string))
    (now : Q) : result unit :=
  check (forallb (fun claim => bool_decide (is_Some (payload !! claim)))
           ["sub"; "iat"; "exp"])
    "Missing required claim" ;;
  check (is_nonempty_str (payload !! "sub")) "Invalid subject claim" ;;
  match required_tenant_id with
  | Some required =>
      if bool_decide (required = "") then Ok tt
      else
        check (option_truthy (payload !! "tenant_id"))
          "Token missing tenant_id claim" ;;
        check (is_str required (payload !! "tenant_id")) "Tenant mismatch"
  | None => Ok tt
  end ;;
  match required_scopes with
  | Some (scope :: scopes) =>
      match default (JStrList []) (payload !! "scopes") with
      | JStrList token_scopes =>
          check (forallb (fun sc => bool_decide (sc ∈ token_scopes))
                   (scope :: scopes))
            "Missing required scopes"
      | _ => Raise (JWTValidationError "Invalid scopes claim format")
      end
  | _ => Ok tt
  end ;;
  match payload !! "iat" with
  | Some (JNum iat) =>
      if Qeq_bool iat 0 then Ok tt
      else check (negb (Qlt_bool (inject_Z (24 * 3600)) (now - iat)))
             "Token is too old"
  | Some (JBool true) =>
      check (negb (Qlt_bool (inject_Z (24 * 3600)) (now - 1))) "Token is too old"
  | Some v => if truthy v then Raise TypeError else Ok tt
  | None => Ok tt
  end.

(** [EnhancedJWTValidator.validate_token], with the manager it owns as
    state. The [except] clauses turn [ExpiredSignatureError],
    [JWTClaimsError], [JWTError] and [JWKSError] into [JWTValidationError];
    a [JWTValidationError] raised inside the [try] passes through them, and
    so does every other exception. *)
Definition validate_token (token : string)
    (required_tenant_id : option string) (required_scopes : option (list string))
    (m : JWKSManager) : result (gmap string json) * JWKSManager :=
  match get_unverified_header token with
  | None => (Raise (JWTValidationError "Token validation failed"), m)
  | Some unverified_header =>
      match hdr_kid unverified_header with
      | None => (Raise (JWTValidationError "Token missing key ID (kid)"), m)
      | Some kid =>
          if bool_decide (kid = "")
          then (Raise (JWTValidationError "Token missing key ID (kid)"), m)
          else
            match get_key_by_kid kid m with
            | (Raise (JWKSError _), m1) =>
                (Raise (JWTValidationError "Authentication service unavailable"), m1)
            | (Raise e, m1) => (Raise e, m1)
            | (Ok None, m1) => (Raise (JWTValidationError "Unknown key ID"), m1)
            | (Ok (Some jwk_data), m1) =>
                match jwk_construct jwk_data with
                | None => (Raise (JWTValidationError "Invalid public key"), m1)
                | Some key =>
                    match jose_decode token key allowed_algorithms with
                    | ExpiredSignatureError =>
                        (Raise (JWTValidationError "Token has expired"), m1)
                    | JWTClaimsError =>
                        (Raise (JWTValidationError "Token claims invalid"), m1)
                    | JWTError =>
                        (Raise (JWTValidationError "Token validation failed"), m1)
                    | Decoded payload =>
                        let now := clock (clock_reads m1) in
                        (_validate_payload payload required_tenant_id
                           required_scopes now ;;
                         Ok payload,
                         tick m1)
                    end
                end
            end
      end
  end.

(** *** The JWKS cache *)

(** On a key set of objects the lookup is a plain search. *)
Lemma find_kid_objects kid ks :
  find_kid kid (objects ks)
  = Ok (find (fun key => bool_decide (jwk_kid key = Some kid)) ks).
Proof.
  induction ks as [| key ks IH]; [reflexivity |].
  simpl. destruct (bool_decide _); [reflexivity | exact IH].
Qed.

Lemma find_kid_some kid ks key :
  find_kid kid ks = Ok (Some key) ->
  In (KeyObject key) ks /\ jwk_kid key = Some kid.
Proof.
  induction ks as [| [k |] ks IH]; simpl; [discriminate | | discriminate].
  case_bool_decide as Hkid.
  - intros [= <-]. split; [now left | exact Hkid].
  - intros H. destruct (IH H) as [Hin Hk]. split; [now right | exact Hk].
Qed.

Lemma find_kid_none kid ks :
  find_kid kid (objects ks) = Ok None
  <-> (forall key, In key ks -> jwk_kid key <> Some kid).
Proof.
  rewrite find_kid_objects. split.
  - intros [= H] key Hin. apply (find_none _ _ H) in Hin.
    now apply bool_decide_eq_false in Hin.
  - intros H. f_equal. induction ks as [| key ks IH]; [reflexivity |].
    simpl. rewrite bool_decide_eq_false_2 by (apply H; now left).
    apply IH. intros key' Hin. apply H. now right.
Qed.


(** One call of [get_jwks] sends at most one request. *)
Lemma get_jwks_fetches force m :
  (fetches m <= fetches (snd (get_jwks force m)) <= S (fetches m))%nat.
Proof.
  unfold get_jwks, fetch_jwks.
  destruct (cached_jwks _ _ _); simpl; [lia |].
  destruct (endpoint _) as [| | | | body | | |]; simpl; try lia.
  destruct (lacks_keys body) as [[|] |]; simpl; lia.
Qed.

(** A forced refresh that gets a well-formed document returns it and
    replaces the cache wholesale. *)
Lemma get_jwks_forced m ks :
  endpoint (fetches m) = Keys ks ->
  get_jwks true m
  = (Ok ks, store ks (clock (clock_reads m)) (count_fetch (tick m))).
Proof. intros H. unfold get_jwks, fetch_jwks. simpl. now rewrite H. Qed.

(** A cache younger than the TTL is used without any request. *)
Lemma get_jwks_cached m ks :
  _keys_cache m = Some ks ->
  (clock (clock_reads m) - _cache_timestamp m < inject_Z (cache_ttl m))%Q ->
  get_jwks false m = (Ok ks, tick m).
Proof.
  intros Hcache Hage. unfold get_jwks, cached_jwks. rewrite Hcache.
  apply Qlt_bool_iff in Hage. now rewrite Hage.
Qed.

(** The replies that [get_jwks] answers with a key set or with
    [JWKSError]. *)
Definition handled (o : http_outcome) : bool :=
  match o with
  | OtherError _ => false
  | NotAnObject body =>
      match lacks_keys body with
      | Some true => true
      | _ => false
      end
  | _ => true
  end.

(** What [get_jwks] raises: [JWKSError] on a reply it handles, and
    otherwise [TypeError] or the exception of the HTTP client. It raises
    only after a request. *)
Lemma get_jwks_raise force m e m' :
  get_jwks force m = (Raise e, m') ->
  (handled (endpoint (fetches m)) = true -> exists msg, e = JWKSError msg)
  /\ (handled (endpoint (fetches m)) = false ->
      e = TypeError \/ exists name, e = OtherException name).
Proof.
  unfold get_jwks, fetch_jwks, handled.
  destruct (cached_jwks _ _ _); [discriminate |]. simpl.
  destruct (endpoint _) as [| | | name | body | | |];
    try (intros [= <- <-]; split; [eauto | discriminate]).
  - intros [= <- <-]. split; [discriminate | eauto].
  - destruct (lacks_keys body) as [[|] |]; intros [= <- <-];
      (split; [eauto || discriminate | eauto || discriminate]).
  - discriminate.
Qed.








Lemma get_key_by_kid_fetches kid m :
  (fetches (snd (get_key_by_kid kid m)) <= fetches m + 2)%nat.
Proof.
  unfold get_key_by_kid.
  pose proof (get_jwks_fetches false m) as H1.
  destruct (get_jwks false m) as [[jwks | e] m1]; simpl in *; [| lia].
  destruct (find_kid kid jwks) as [[key |] | e]; simpl; [lia | | lia].
  pose proof (get_jwks_fetches true m1) as H2.
  destruct (get_jwks true m1) as [[jwks' | e] m2]; simpl in *; lia.
Qed.

(** C4. [get_key_by_kid] sends at most two requests to the JWKS endpoint.
    When the key set it consults first (the cache while younger than the
    TTL, otherwise a newly fetched set) has no entry for [kid] and the
    forced refresh returns the key set [fresh], the call returns the entry
    of [fresh] for [kid] if there is one, and [None] if there is none. *)
Theorem C4_get_key_by_kid_refresh_on_miss kid m :
  (fetches (snd (get_key_by_kid kid m)) <= fetches m + 2)%nat
  /\ forall first m1 fresh,
       get_jwks false m = (Ok (objects first), m1) ->
       (forall key, In key first -> jwk_kid key <> Some kid) ->
       endpoint (fetches m1) = Keys (objects fresh) ->
       ((exists key, In key fresh /\ jwk_kid key = Some kid) ->
        exists key, fst (get_key_by_kid kid m) = Ok (Some key)
                    /\ In key fresh /\ jwk_kid key = Some kid)
       /\ ((forall key, In key fresh -> jwk_kid key <> Some kid) ->
           fst (get_key_by_kid kid m) = Ok None).
Proof.
  split; [apply get_key_by_kid_fetches |].
  intros first m1 fresh Hfirst Habsent Hfresh.
  assert (Hcall : fst (get_key_by_kid kid m)
                  = Ok (find (fun key => bool_decide (jwk_kid key = Some kid))
                          fresh)).
  { unfold get_key_by_kid. rewrite Hfirst.
    apply find_kid_none in Habsent. rewrite Habsent.
    rewrite (get_jwks_forced _ _ Hfresh). simpl. apply find_kid_objects. }
  rewrite Hcall. split.
  - intros [key [Hin Hkid]].
    destruct (find _ fresh) as [key' |] eqn:Hfind.
    + exists key'. split; [reflexivity |].
      apply find_some in Hfind as [Hin' Hkid'].
      split; [exact Hin' | now apply bool_decide_eq_true in Hkid'].
    + exfalso. apply (find_none _ _ Hfind) in Hin.
      apply bool_decide_eq_false in Hin. contradiction.
  - intros Hnone. apply find_kid_none in Hnone.
    rewrite find_kid_objects in Hnone. now injection Hnone as ->.
Qed.

(** *** The token validator *)

Section JoseContract.

(** python-jose's [jws._verify_signature] refuses a token whose header
    [alg] is not among the [algorithms] it was given, and [jwt.decode]
    re-raises that as [JWTError]. *)
Hypothesis jose_decode_allowlist :
  forall token key algorithms header alg,
    get_unverified_header token = Some header ->
    hdr_alg header = Some alg ->
    ~ In alg algorithms ->
    jose_decode token key algorithms = JWTError.



End JoseContract.

End World.

(** *** A concrete issuer *)

Definition key_a : jwk :=
  {| jwk_kid := Some "key-a"; jwk_kty := "RSA"; jwk_alg := Some "RS256";
     jwk_material := "modulus-a" |}.

Definition key_b : jwk :=
  {| jwk_kid := Some "key-b"; jwk_kty := "RSA"; jwk_alg := Some "RS256";
     jwk_material := "modulus-b" |}.

(** A manager whose cache holds [key_a] only, filled at time 0. *)
Definition warm_manager : JWKSManager :=
  {| cache_ttl := 3600; _keys_cache := Some (objects [key_a]);
     _cache_timestamp := 0; fetches := 1; clock_reads := 1 |}.

(** The issuer has rotated its keys: every request now returns both. *)
Definition rotated_endpoint (_ : nat) : http_outcome :=
  Keys (objects [key_a; key_b]).

(** An endpoint that answers 200 with the body [null]. *)
Definition null_body_endpoint (_ : nat) : http_outcome := NotAnObject BodyNull.

Definition clock_at_100 (_ : nat) : Q := 100.

(** A stand-in for python-jose: two known tokens, keys that are their
    material, and a [decode] that checks the header algorithm against the
    list it is given before anything else. *)
Definition toy_header (token : string) : option jose_header :=
  if bool_decide (token = "hs256.token")
  then Some {| hdr_kid := Some "key-a"; hdr_alg := Some "HS256" |}
  else if bool_decide (token = "rs256.token")
  then Some {| hdr_kid := Some "key-a"; hdr_alg := Some "RS256" |}
  else None.

Definition toy_construct (k : jwk) : option string := Some (jwk_material k).

Definition toy_decode (token : string) (_ : string) (algorithms : list string)
  : decode_outcome :=
  match toy_header token with
  | Some header =>
      match hdr_alg header with
      | Some alg =>
          if existsb (String.eqb alg) algorithms
          then Decoded {[ "sub" := JStr "user-1";
                          "iat" := JNum 90; "exp" := JNum 200 ]}
          else JWTError
      | None => JWTError
      end
  | None => JWTError
  end.


Example rs256_token_accepted :
  exists payload,
    fst (validate_token rotated_endpoint clock_at_100 string toy_header
           toy_construct toy_decode "rs256.token" None None warm_manager)
    = Ok payload.
Proof. eexists. vm_compute. reflexivity. Qed.

(** With an empty cache and an endpoint that answers [null], the
    [TypeError] of ["keys" not in jwks_data] leaves [validate_token], for
    the HS256 token as for the RS256 token. *)
Example null_body_is_type_error :
  fst (validate_token null_body_endpoint clock_at_100 string toy_header
         toy_construct toy_decode "hs256.token" None None (new_manager 3600))
  = Raise TypeError
  /\ fst (validate_token null_body_endpoint clock_at_100 string toy_header
            toy_construct toy_decode "rs256.token" None None (new_manager 3600))
     = Raise TypeError.
Proof. split; vm_compute; reflexivity. Qed.

(** An entry that is not an object raises [AttributeError] when the loop
    reaches it, and not when the key is found before it. *)
Example entry_that_is_not_an_object :
  find_kid "key-b" [KeyObject key_a; NotADict; KeyObject key_b]
  = Raise AttributeError
  /\ find_kid "key-a" [KeyObject key_a; NotADict; KeyObject key_b]
     = Ok (Some key_a).
Proof. split; reflexivity. Qed.

Lemma C4_get_key_by_kid_refresh_on_miss_witness :
  exists key,
    fst (get_key_by_kid rotated_endpoint clock_at_100 "key-b" warm_manager)
    = Ok (Some key)
    /\ In key [key_a; key_b] /\ jwk_kid key = Some "key-b".
Proof.
  destruct (C4_get_key_by_kid_refresh_on_miss rotated_endpoint clock_at_100
              "key-b" warm_manager) as [_ Hrefresh].
  apply (Hrefresh [key_a] (tick warm_manager) [key_a; key_b]).
  - reflexivity.
  - intros key [<- | []]. discriminate.
  - reflexivity.
  - exists key_b. split; [right; left; reflexivity | reflexivity].
Defined.


End Auth.

(** ** The in-memory rate limiter (text-summarization/main.py) *)

Module RateLimiter.

Local Open Scope Q_scope.

(** [InMemoryRateLimiter]: [requests] maps a client key to the times of its
    admitted requests, oldest first. *)
Record InMemoryRateLimiter : Type := {
  calls : Z;
  period : Z;
  requests : gmap string (list Q)
}.

Definition new_limiter (calls period : Z) : InMemoryRateLimiter :=
  {| calls := calls; period := period; requests := ∅ |}.

(** [now - req_time < self.period] *)
Definition in_window (period : Z) (now req_time : Q) : bool :=
  Qlt_bool (now - req_time) (inject_Z period).

(** [is_allowed(key)] at clock reading [now]. *)
Definition is_allowed (key : string) (now : Q) (rl : InMemoryRateLimiter)
  : bool * InMemoryRateLimiter :=
  let recent :=
    List.filter (in_window (period rl) now) (default [] (requests rl !! key)) in
  if (calls rl <=? Z.of_nat (length recent))%Z
  then (false, {| calls := calls rl; period := period rl;
                  requests := <[key := recent]> (requests rl) |})
  else (true, {| calls := calls rl; period := period rl;
                 requests := <[key := recent ++ [now]]> (requests rl) |}).

(** A burst of checks for one key, one per clock reading. *)
Fixpoint run_checks (key : string) (times : list Q) (rl : InMemoryRateLimiter)
  : list bool * InMemoryRateLimiter :=
  match times with
  | [] => ([], rl)
  | now :: times' =>
      let '(allowed, rl1) := is_allowed key now rl in
      let '(rest, rl2) := run_checks key times' rl1 in
      (allowed :: rest, rl2)
  end.

(** The times recorded for a key ([[]] when the key is unknown). *)
Definition recorded (key : string) (rl : InMemoryRateLimiter) : list Q :=
  default [] (requests rl !! key).

Lemma filter_all {A : Type} (f : A -> bool) (l : list A) :
  Forall (fun x => f x = true) l -> List.filter f l = l.
Proof.
  induction 1 as [| x l Hx _ IH]; [reflexivity |].
  simpl. now rewrite Hx, IH.
Qed.

Lemma filter_none {A : Type} (f : A -> bool) (l : list A) :
  Forall (fun x => f x = false) l -> List.filter f l = [].
Proof.
  induction 1 as [| x l Hx _ IH]; [reflexivity |].
  simpl. now rewrite Hx.
Qed.

Lemma is_allowed_config key now rl :
  calls (snd (is_allowed key now rl)) = calls rl
  /\ period (snd (is_allowed key now rl)) = period rl.
Proof. unfold is_allowed. destruct (_ <=? _)%Z; simpl; auto. Qed.

(** A check with the window full is rejected, and records nothing. *)
Lemma is_allowed_window_full key now rl :
  (calls rl <= Z.of_nat (length (List.filter (in_window (period rl) now)
                                   (recorded key rl))))%Z ->
  fst (is_allowed key now rl) = false
  /\ recorded key (snd (is_allowed key now rl))
     = List.filter (in_window (period rl) now) (recorded key rl).
Proof.
  intros Hfull. unfold is_allowed, recorded in *.
  apply Z.leb_le in Hfull. rewrite Hfull. simpl.
  split; [reflexivity |]. now rewrite lookup_insert_eq.
Qed.

(** A check with room in the window is admitted and recorded. *)
Lemma is_allowed_window_room key now rl :
  (Z.of_nat (length (List.filter (in_window (period rl) now)
                       (recorded key rl))) < calls rl)%Z ->
  fst (is_allowed key now rl) = true
  /\ recorded key (snd (is_allowed key now rl))
     = List.filter (in_window (period rl) now) (recorded key rl) ++ [now].
Proof.
  intros Hroom. unfold is_allowed, recorded in *.
  apply Z.leb_gt in Hroom. rewrite Hroom. simpl.
  split; [reflexivity |]. now rewrite lookup_insert_eq.
Qed.

(** A burst that fits the limit, every request of which is still inside
    the window at [t], is admitted in full and recorded in order. *)
Lemma run_checks_admitted key t times :
  forall rl,
    Forall (fun ti => ti <= t /\ t - ti < inject_Z (period rl))
      (recorded key rl ++ times) ->
    (Z.of_nat (length (recorded key rl) + length times) <= calls rl)%Z ->
    fst (run_checks key times rl) = repeat true (length times)
    /\ recorded key (snd (run_checks key times rl)) = recorded key rl ++ times
    /\ calls (snd (run_checks key times rl)) = calls rl
    /\ period (snd (run_checks key times rl)) = period rl.
Proof.
  induction times as [| now times IH]; intros rl Hwin Hlen.
  - simpl. now rewrite app_nil_r.
  - assert (Hkeep : List.filter (in_window (period rl) now) (recorded key rl)
                    = recorded key rl).
    { apply filter_all. apply Forall_app in Hwin as [Hold Hnew].
      apply Forall_cons in Hnew as [[Hnow _] _].
      eapply Forall_impl; [exact Hold |]. intros o [_ Ho]. simpl in Ho |- *.
      apply Qlt_bool_iff. lra. }
    destruct (is_allowed_window_room key now rl) as [Hadm Hrec].
    { rewrite Hkeep. rewrite length_cons in Hlen. lia. }
    destruct (is_allowed_config key now rl) as [Hcalls Hperiod].
    rewrite Hkeep in Hrec. simpl.
    destruct (is_allowed key now rl) as [allowed rl1]. simpl in *. subst allowed.
    specialize (IH rl1). rewrite Hrec, Hcalls, Hperiod, <- app_assoc in IH.
    destruct IH as (Hres & Hrec' & Hcalls' & Hperiod').
    + exact Hwin.
    + rewrite length_app. simpl in *. lia.
    + destruct (run_checks key times rl1) as [rest rl2]. simpl in *.
      now rewrite Hres.
Qed.

(** A burst of exactly limit-many requests of a key that had none
    recorded is admitted in full, and fills the window at [t]. *)
Lemma full_burst_fills_window key t times rl :
  recorded key rl = [] ->
  Z.of_nat (length times) = calls rl ->
  Forall (fun ti => ti <= t /\ t - ti < inject_Z (period rl)) times ->
  fst (run_checks key times rl) = repeat true (length times)
  /\ Z.of_nat (length (List.filter
                         (in_window (period (snd (run_checks key times rl))) t)
                         (recorded key (snd (run_checks key times rl)))))
     = calls (snd (run_checks key times rl)).
Proof.
  intros Hnone Hlen Hwin.
  destruct (run_checks_admitted key t times rl) as (Hres & Hrec & Hcalls & Hperiod).
  - now rewrite Hnone.
  - rewrite Hnone. simpl. lia.
  - split; [exact Hres |].
    rewrite Hrec, Hcalls, Hperiod, Hnone. simpl.
    rewrite filter_all; [exact Hlen |].
    eapply Forall_impl; [exact Hwin |]. intros ti [_ Hti]. simpl.
    now apply Qlt_bool_iff.
Qed.

(** A limit of zero or less admits nothing. *)
Lemma is_allowed_no_budget key now rl :
  (calls rl <= 0)%Z -> fst (is_allowed key now rl) = false.
Proof. intros H. apply is_allowed_window_full. lia. Qed.

(** C6. When the number of admitted requests of a key inside the window at
    [now] equals the limit, the check at [now] is rejected; and once every
    recorded request of the key is at least one period old, the next check
    is allowed. The limit is one that admits requests at all
    ([1 <= calls]). *)
Theorem C6_limit_reached_then_window_elapsed key now later rl :
  Z.of_nat (length (List.filter (in_window (period rl) now) (recorded key rl)))
  = calls rl ->
  (1 <= calls rl)%Z ->
  Forall (fun t => inject_Z (period rl) <= later - t) (recorded key rl) ->
  fst (is_allowed key now rl) = false
  /\ fst (is_allowed key later (snd (is_allowed key now rl))) = true.
Proof.
  intros Hfull Hlimit Hold.
  destruct (is_allowed_window_full key now rl) as [Hrej Hrec]; [lia |].
  destruct (is_allowed_config key now rl) as [Hcalls Hperiod].
  split; [exact Hrej |].
  apply is_allowed_window_room. rewrite Hrec, Hcalls, Hperiod.
  rewrite filter_none; [simpl; lia |].
  apply List.Forall_forall. intros t Hin. apply filter_In in Hin as [Hin _].
  rewrite List.Forall_forall in Hold. specialize (Hold t Hin).
  unfold in_window. apply not_true_iff_false. rewrite Qlt_bool_iff. lra.
Qed.

(** Three requests of one client against a limit of 3 per 60 seconds. *)
Definition after_burst : InMemoryRateLimiter :=
  snd (run_checks "10.0.0.1" [0; 1; 2] (new_limiter 3 60)).

Example burst_admitted :
  fst (run_checks "10.0.0.1" [0; 1; 2] (new_limiter 3 60)) = [true; true; true]
  /\ fst (is_allowed "10.0.0.1" 10 after_burst) = false
  /\ fst (is_allowed "10.0.0.2" 10 after_burst) = true.
Proof. repeat split; vm_compute; reflexivity. Qed.

Lemma C6_limit_reached_then_window_elapsed_witness :
  fst (is_allowed "10.0.0.1" 10 after_burst) = false
  /\ fst (is_allowed "10.0.0.1" 100
            (snd (is_allowed "10.0.0.1" 10 after_burst))) = true.
Proof.
  apply C6_limit_reached_then_window_elapsed.
  - vm_compute. reflexivity.
  - vm_compute. discriminate.
  - vm_compute. repeat constructor; discriminate.
Defined.

End RateLimiter.

(** ** The context repository (context-service/repository.py) *)

Module Repository.

Local Open Scope Z_scope.

Inductive exn : Type :=
| DatabaseError (msg : string).

Inductive result (A : Type) : Type :=
| Ok (a : A)
| Raise (e : exn).
Arguments Ok {A} a.
Arguments Raise {A} e.

(** A row of the [contexts] table (db_models.py, [Context]). Timestamps
    are in microseconds, the resolution of [timestamptz]; [context_data]
    is the JSON text. *)
Record context_row : Type := {
  id : string;
  context_data : string;
  context_type : string;
  title : option string;
  description : option string;
  tags : list string;
  tenant_id : string;
  user_id : option string;
  created_at : Z;
  updated_at : Z;
  expires_at : option Z;
  version : Z
}.

(** A server: whether it accepts connections, and for each schema that has
    one its [contexts] table, keyed by the primary key [id]. *)
Record database : Type := {
  online : bool;
  schemas : gmap string (gmap string context_row)
}.

(** The keyword arguments [update_context] reads from [update_data];
    [None] is a key that is missing or maps to Python's [None]. *)
Record update_data : Type := {
  upd_context_data : option string;
  upd_title : option string;
  upd_description : option string;
  upd_tags : option (list string);
  upd_expires_at : option Z
}.

Definition no_fields : update_data :=
  {| upd_context_data := None; upd_title := None; upd_description := None;
     upd_tags := None; upd_expires_at := None |}.

(** [str.isalnum] on the characters of an ASCII string. *)
Definition is_alnum (c : Ascii.ascii) : bool :=
  let n := Ascii.nat_of_ascii c in
  ((48 <=? n) && (n <=? 57) || (65 <=? n) && (n <=? 90)
   || (97 <=? n) && (n <=? 122))%nat.

(** [tenant_id.replace('-', '').replace('_', '')] *)
Definition strip_separators (tenant : string) : list Ascii.ascii :=
  List.filter (fun c => negb (Ascii.eqb c "-"%char || Ascii.eqb c "_"%char))
    (String.list_ascii_of_string tenant).

(** The test of [TenantAwareDB.set_search_path], negated:
    [tenant_id and tenant_id.replace('-', '').replace('_', '').isalnum()].
    Tenant ids are ASCII. *)
Definition valid_tenant_id (tenant : string) : bool :=
  match strip_separators tenant with
  | [] => false
  | cs => forallb is_alnum cs
  end.

(** [expires_at IS NULL OR expires_at > NOW()] *)
Definition live (now : Z) (row : context_row) : bool :=
  match expires_at row with
  | None => true
  | Some e => now <? e
  end.

(** The largest value of an [Integer] column, and the width of
    [String(255)]. *)
Definition INT4_MAX : Z := 2147483647.
Definition TITLE_WIDTH : nat := 255.

(** [COALESCE(new, old)] on a column that is nullable. *)
Definition coalesce {A : Type} (new old : option A) : option A :=
  match new with
  | Some v => Some v
  | None => old
  end.

(** The [SET] list of the [UPDATE] in [update_context]. PostgreSQL aborts
    the statement ([None]) when the new title is wider than its column or
    [version + 1] leaves the range of [Integer]. *)
Definition updated_row (upd : update_data) (now : Z) (row : context_row)
  : option context_row :=
  if match upd_title upd with
     | Some t => (TITLE_WIDTH <? String.length t)%nat
     | None => false
     end
     || (INT4_MAX <? version row + 1)
  then None
  else Some
    {| id := id row;
       context_data := default (context_data row) (upd_context_data upd);
       context_type := context_type row;
       title := coalesce (upd_title upd) (title row);
       description := coalesce (upd_description upd) (description row);
       tags := default (tags row) (upd_tags upd);
       tenant_id := tenant_id row;
       user_id := user_id row;
       created_at := created_at row;
       updated_at := now;
       expires_at := coalesce (upd_expires_at upd) (expires_at row);
       version := version row + 1 |}.

(** The [SET] list of the [UPDATE] in [delete_context]. *)
Definition soft_deleted_row (now : Z) (row : context_row) : option context_row :=
  Some
    {| id := id row;
       context_data := context_data row;
       context_type := context_type row;
       title := title row;
       description := description row;
       tags := tags row;
       tenant_id := tenant_id row;
       user_id := user_id row;
       created_at := created_at row;
       updated_at := now;
       expires_at := Some now;
       version := version row |}.

Definition set_table (schema : string) (tbl : gmap string context_row)
    (db : database) : database :=
  {| online := online db; schemas := <[schema := tbl]> (schemas db) |}.

(** The first schema of the search path that has a [contexts] table. *)
Fixpoint resolve (path : list string) (db : database)
  : option (string * gmap string context_row) :=
  match path with
  | [] => None
  | schema :: path' =>
      match schemas db !! schema with
      | Some tbl => Some (schema, tbl)
      | None => resolve path' db
      end
  end.

Definition lookup_row (schema context_id : string) (db : database)
  : option context_row :=
  schemas db !! schema ≫= fun tbl => tbl !! context_id.

(** The columns outside every [SET] list. *)
Definition frame (row : context_row) : string * string * option string * string * Z :=
  (id row, tenant_id row, user_id row, context_type row, created_at row).

Section Postgres.

(** What the server makes of [SET search_path TO tenant_<id>, public]: the
    schemas searched, in order, or [None] when it rejects the statement. *)
Variable search_path_of : string -> option (list string).

(** [TenantAwareDB.get_connection] up to its [yield]: connect, validate the
    tenant id, set the search path. Every failure reaches the repository
    method as an exception, which wraps it in [DatabaseError]. *)
Definition get_connection (tenant : string) (db : database) : result (list string) :=
  if negb (online db) then Raise (DatabaseError "Database connection failed")
  else if negb (valid_tenant_id tenant)
  then Raise (DatabaseError "Unexpected database error: Invalid tenant ID")
  else match search_path_of tenant with
       | Some path => Ok path
       | None => Raise (DatabaseError "Database connection failed")
       end.

(** One [UPDATE contexts SET ... WHERE id = $1 AND (expires_at IS NULL OR
    expires_at > NOW())] on a connection: [change] is the [SET] list. The
    result is the number of rows of the command tag. *)
Definition execute_update (path : list string) (context_id : string)
    (change : context_row -> option context_row) (now : Z) (db : database)
  : result Z * database :=
  match resolve path db with
  | None => (Raise (DatabaseError "relation contexts does not exist"), db)
  | Some (schema, tbl) =>
      match tbl !! context_id with
      | Some row =>
          if live now row
          then match change row with
               | Some row' =>
                   (Ok 1, set_table schema (<[context_id := row']> tbl) db)
               | None =>
                   (Raise (DatabaseError "value out of range for column"), db)
               end
          else (Ok 0, db)
      | None => (Ok 0, db)
      end
  end.

(** [ContextRepository.update_context]; [now] is the server's [NOW()]. *)
Definition update_context (tenant context_id : string) (upd : update_data)
    (now : Z) (db : database) : result bool * database :=
  match get_connection tenant db with
  | Raise e => (Raise (DatabaseError "Failed to update context"), db)
  | Ok conn =>
      match execute_update conn context_id (updated_row upd now) now db with
      | (Ok rows_affected, db') => (Ok (0 <? rows_affected), db')
      | (Raise e, db') => (Raise (DatabaseError "Failed to update context"), db')
      end
  end.

(** [ContextRepository.delete_context]. *)
Definition delete_context (tenant context_id : string) (now : Z) (db : database)
  : result bool * database :=
  match get_connection tenant db with
  | Raise e => (Raise (DatabaseError "Failed to delete context"), db)
  | Ok conn =>
      match execute_update conn context_id (soft_deleted_row now) now db with
      | (Ok rows_affected, db') => (Ok (0 <? rows_affected), db')
      | (Raise e, db') => (Raise (DatabaseError "Failed to delete context"), db')
      end
  end.

(** [ContextRepository.get_context]: the row, if it is there and live. *)
Definition get_context (tenant context_id : string) (now : Z) (db : database)
  : result (option context_row) :=
  match get_connection tenant db with
  | Raise e => Raise (DatabaseError "Failed to retrieve context")
  | Ok conn =>
      match resolve conn db with
      | None => Raise (DatabaseError "Failed to retrieve context")
      | Some (_, tbl) =>
          match tbl !! context_id with
          | Some row => if live now row then Ok (Some row) else Ok None
          | None => Ok None
          end
      end
  end.

(** *** Properties *)

Lemma resolve_some path db schema tbl :
  resolve path db = Some (schema, tbl) -> schemas db !! schema = Some tbl.
Proof.
  induction path as [| s path IH]; [discriminate |].
  simpl. destruct (schemas db !! s) eqn:Hs; [| exact IH].
  now intros [= <- <-].
Qed.

(** Rewriting the resolved table does not change which table the search
    path resolves to. *)
Lemma resolve_set_table path db schema tbl tbl' :
  resolve path db = Some (schema, tbl) ->
  resolve path (set_table schema tbl' db) = Some (schema, tbl').
Proof.
  induction path as [| s path IH]; [discriminate |].
  simpl. destruct (schemas db !! s) eqn:Hs.
  - intros [= <- <-]. now rewrite lookup_insert_eq.
  - intros Hres. rewrite lookup_insert_ne.
    + rewrite Hs. now apply IH.
    + intros <-. apply resolve_some in Hres. congruence.
Qed.

Lemma get_connection_set_table tenant schema tbl db :
  get_connection tenant (set_table schema tbl db) = get_connection tenant db.
Proof. reflexivity. Qed.

Lemma lookup_row_set_table schema tbl db context_id :
  lookup_row schema context_id (set_table schema tbl db) = tbl !! context_id.
Proof. unfold lookup_row, set_table. simpl. now rewrite lookup_insert_eq. Qed.

(** What one statement does, by cases on the addressed row. *)
Lemma execute_update_hit path context_id change now db schema tbl row row' :
  resolve path db = Some (schema, tbl) ->
  tbl !! context_id = Some row ->
  live now row = true ->
  change row = Some row' ->
  execute_update path context_id change now db
  = (Ok 1, set_table schema (<[context_id := row']> tbl) db).
Proof.
  intros Hres Hrow Hlive Hchange. unfold execute_update.
  now rewrite Hres, Hrow, Hlive, Hchange.
Qed.

Lemma execute_update_miss path context_id change now db schema tbl :
  resolve path db = Some (schema, tbl) ->
  tbl !! context_id = None
  \/ (exists row, tbl !! context_id = Some row /\ live now row = false) ->
  execute_update path context_id change now db = (Ok 0, db).
Proof.
  intros Hres Hmiss. unfold execute_update. rewrite Hres.
  destruct Hmiss as [-> | [row [-> ->]]]; reflexivity.
Qed.

Lemma execute_update_rows path context_id change now db n db' :
  execute_update path context_id change now db = (Ok n, db') ->
  (n = 0 /\ db' = db)
  \/ (n = 1 /\ exists schema tbl row row',
        resolve path db = Some (schema, tbl)
        /\ tbl !! context_id = Some row /\ live now row = true
        /\ change row = Some row'
        /\ db' = set_table schema (<[context_id := row']> tbl) db).
Proof.
  unfold execute_update.
  destruct (resolve path db) as [[schema tbl] |] eqn:Hres; [| discriminate].
  destruct (tbl !! context_id) as [row |] eqn:Hrow.
  - destruct (live now row) eqn:Hlive.
    + destruct (change row) as [row' |] eqn:Hchange; [| discriminate].
      intros [= <- <-]. right. split; [reflexivity |].
      exists schema, tbl, row, row'. auto.
    + intros [= <- <-]. now left.
  - intros [= <- <-]. now left.
Qed.

Lemma updated_row_version upd now row row' :
  updated_row upd now row = Some row' -> version row' = version row + 1.
Proof.
  unfold updated_row. destruct (_ || _); [discriminate |].
  now intros [= <-].
Qed.

Lemma updated_row_frame upd now row row' :
  updated_row upd now row = Some row' -> frame row' = frame row.
Proof.
  unfold updated_row. destruct (_ || _); [discriminate |].
  now intros [= <-].
Qed.

(** C7. On an established connection whose search path resolves to the
    table [tbl]: an update that reports success ([True]) found the record
    present and live and left its version exactly one higher, whatever
    fields it supplied; an update of a present, live record that PostgreSQL
    accepts does report success; and an update of an absent or expired
    record reports [False] and changes nothing. *)
Theorem C7_update_context_version
    tenant context_id upd now db path schema tbl :
  get_connection tenant db = Ok path ->
  resolve path db = Some (schema, tbl) ->
  (forall db',
      update_context tenant context_id upd now db = (Ok true, db') ->
      exists row,
        tbl !! context_id = Some row /\ live now row = true
        /\ version <$> lookup_row schema context_id db'
           = Some (version row + 1))
  /\ (forall row row',
        tbl !! context_id = Some row -> live now row = true ->
        updated_row upd now row = Some row' ->
        exists db', update_context tenant context_id upd now db = (Ok true, db'))
  /\ (tbl !! context_id = None
        \/ (exists row, tbl !! context_id = Some row /\ live now row = false) ->
      update_context tenant context_id upd now db = (Ok false, db)).
Proof.
  intros Hconn Hres. unfold update_context. rewrite Hconn.
  split; [| split].
  - intros db'.
    destruct (execute_update _ _ _ _ _) as [[n | e] db1] eqn:Hexec; [| discriminate].
    apply execute_update_rows in Hexec
      as [[-> ->] | [-> (schema' & tbl' & row & row' & Hres' & Hrow & Hlive & Hnew & ->)]];
      [discriminate |].
    intros [= <-]. rewrite Hres in Hres'. injection Hres' as <- <-.
    exists row. split; [assumption |]. split; [assumption |].
    rewrite lookup_row_set_table, lookup_insert_eq. simpl.
    now rewrite (updated_row_version _ _ _ _ Hnew).
  - intros row row' Hrow Hlive Hnew.
    rewrite (execute_update_hit _ _ _ _ _ _ _ _ _ Hres Hrow Hlive Hnew). eauto.
  - intros Hmiss. now rewrite (execute_update_miss _ _ _ _ _ _ _ Hres Hmiss).
Qed.

(** C8. On an established connection and with a clock that does not run
    backwards: deleting a present, live record sets its [expires_at] to
    the time of the call and returns [True]; a second delete of the same
    record returns [False] and changes nothing; so does the delete of a
    record that never existed. None of them raises. *)
Theorem C8_delete_context_idempotent
    tenant context_id now1 now2 db path schema tbl :
  get_connection tenant db = Ok path ->
  resolve path db = Some (schema, tbl) ->
  now1 <= now2 ->
  (forall row,
      tbl !! context_id = Some row -> live now1 row = true ->
      exists db1,
        delete_context tenant context_id now1 db = (Ok true, db1)
        /\ expires_at <$> lookup_row schema context_id db1 = Some (Some now1)
        /\ delete_context tenant context_id now2 db1 = (Ok false, db1))
  /\ (tbl !! context_id = None ->
      delete_context tenant context_id now1 db = (Ok false, db)).
Proof.
  intros Hconn Hres Hclock. split.
  - intros row Hrow Hlive.
    pose (row' := {| id := id row; context_data := context_data row;
                     context_type := context_type row; title := title row;
                     description := description row; tags := tags row;
                     tenant_id := tenant_id row; user_id := user_id row;
                     created_at := created_at row; updated_at := now1;
                     expires_at := Some now1; version := version row |}).
    exists (set_table schema (<[context_id := row']> tbl) db).
    unfold delete_context. rewrite Hconn.
    rewrite (execute_update_hit path context_id (soft_deleted_row now1) now1 db
               schema tbl row row' Hres Hrow Hlive eq_refl).
    split; [reflexivity |].
    split; [now rewrite lookup_row_set_table, lookup_insert_eq |].
    rewrite get_connection_set_table, Hconn.
    rewrite (execute_update_miss _ _ _ _ _ schema (<[context_id := row']> tbl)).
    + reflexivity.
    + now apply resolve_set_table with (tbl := tbl).
    + right. exists row'. rewrite lookup_insert_eq. split; [reflexivity |].
      unfold live. simpl. apply Z.ltb_ge. exact Hclock.
  - intros Hnone. unfold delete_context. rewrite Hconn.
    rewrite (execute_update_miss _ _ _ _ _ schema tbl Hres); auto.
Qed.

(** C10. Whatever an update supplies and whether or not it succeeds,
    every record of every schema keeps its [id], [tenant_id], [user_id],
    [context_type] and [created_at]; no record appears or disappears. *)
Theorem C10_update_context_frame tenant context_id upd now db schema i :
  frame <$> lookup_row schema i (snd (update_context tenant context_id upd now db))
  = frame <$> lookup_row schema i db.
Proof.
  unfold update_context.
  destruct (get_connection tenant db) as [path | e]; [| reflexivity].
  destruct (execute_update _ _ _ _ _) as [[n | e] db1] eqn:Hexec.
  - apply execute_update_rows in Hexec
      as [[-> ->] | [-> (schema' & tbl & row & row' & Hres & Hrow & Hlive & Hnew & ->)]];
      [reflexivity |].
    simpl. apply resolve_some in Hres.
    unfold lookup_row, set_table. simpl.
    destruct (decide (schema' = schema)) as [-> | Hne].
    + rewrite lookup_insert_eq, Hres. simpl.
      destruct (decide (context_id = i)) as [-> | Hne'].
      * rewrite lookup_insert_eq, Hrow. simpl.
        now rewrite (updated_row_frame _ _ _ _ Hnew).
      * now rewrite lookup_insert_ne.
    + now rewrite lookup_insert_ne.
  - unfold execute_update in Hexec.
    destruct (resolve path db) as [[schema' tbl] |]; [| now injection Hexec as _ <-].
    destruct (tbl !! context_id) as [row |]; [| discriminate].
    destruct (live now row); [| discriminate].
    destruct (updated_row upd now row); [discriminate |].
    now injection Hexec as _ <-.
Qed.

End Postgres.

(** *** A concrete tenant *)

(** A server that searches [tenant_<id>] and then [public]. *)
Definition plain_search_path (tenant : string) : option (list string) :=
  Some ["tenant_" +:+ tenant; "public"].

Definition note_row : context_row :=
  {| id := "ctx_1"; context_data := "{}"; context_type := "note";
     title := Some "first"; description := None; tags := ["a"];
     tenant_id := "acme"; user_id := Some "user-1";
     created_at := 100; updated_at := 100; expires_at := None;
     version := 1 |}.

Definition acme_db : database :=
  {| online := true;
     schemas := {[ "tenant_acme" := {[ "ctx_1" := note_row ]} ]} |}.

Definition retitle : update_data :=
  {| upd_context_data := Some "{}"; upd_title := Some "second";
     upd_description := Some "text"; upd_tags := Some [];
     upd_expires_at := Some 5000 |}.

Example update_zero_fields :
  exists db',
    update_context plain_search_path "acme" "ctx_1" no_fields 1000 acme_db
    = (Ok true, db')
    /\ lookup_row "tenant_acme" "ctx_1" db'
       = Some {| id := "ctx_1"; context_data := "{}"; context_type := "note";
                 title := Some "first"; description := None; tags := ["a"];
                 tenant_id := "acme"; user_id := Some "user-1";
                 created_at := 100; updated_at := 1000; expires_at := None;
                 version := 2 |}.
Proof. eexists. split; vm_compute; reflexivity. Qed.

Example update_all_fields :
  exists db',
    update_context plain_search_path "acme" "ctx_1" retitle 1000 acme_db
    = (Ok true, db')
    /\ version <$> lookup_row "tenant_acme" "ctx_1" db' = Some 2.
Proof. eexists. split; vm_compute; reflexivity. Qed.

Example update_other_tenant :
  update_context plain_search_path "globex" "ctx_1" retitle 1000 acme_db
  = (Raise (DatabaseError "Failed to update context"), acme_db).
Proof. vm_compute. reflexivity. Qed.

Lemma C7_update_context_version_witness :
  exists db',
    update_context plain_search_path "acme" "ctx_1" no_fields 1000 acme_db
    = (Ok true, db')
    /\ version <$> lookup_row "tenant_acme" "ctx_1" db' = Some 2.
Proof.
  destruct (C7_update_context_version plain_search_path "acme" "ctx_1"
              no_fields 1000 acme_db ["tenant_acme"; "public"] "tenant_acme"
              {[ "ctx_1" := note_row ]} eq_refl eq_refl)
    as (Hsuccess & Hlive & _).
  destruct (Hlive note_row
              {| id := "ctx_1"; context_data := "{}"; context_type := "note";
                 title := Some "first"; description := None; tags := ["a"];
                 tenant_id := "acme"; user_id := Some "user-1";
                 created_at := 100; updated_at := 1000; expires_at := None;
                 version := 2 |} eq_refl eq_refl eq_refl) as [db' Hupd].
  exists db'. split; [exact Hupd |].
  destruct (Hsuccess db' Hupd) as (row & Hrow & _ & Hversion).
  vm_compute in Hrow. injection Hrow as <-. exact Hversion.
Defined.

Lemma C8_delete_context_idempotent_witness :
  exists db1,
    delete_context plain_search_path "acme" "ctx_1" 1000 acme_db = (Ok true, db1)
    /\ expires_at <$> lookup_row "tenant_acme" "ctx_1" db1 = Some (Some 1000)
    /\ delete_context plain_search_path "acme" "ctx_1" 2000 db1 = (Ok false, db1).
Proof.
  destruct (C8_delete_context_idempotent plain_search_path "acme" "ctx_1"
              1000 2000 acme_db ["tenant_acme"; "public"] "tenant_acme"
              {[ "ctx_1" := note_row ]} eq_refl eq_refl) as [Hpresent _].
  - lia.
  - apply (Hpresent note_row); reflexivity.
Defined.

End Repository.

(** ** Output truncation of the backends (text-summarization/pipeline.py)

    [_generate_openai], [_generate_huggingface] and [_generate_local] end
    with the same statement:
    [if len(summary) > max_length: summary = summary[:max_length-3] + "..."]. *)

Module Truncation.

Local Open Scope Z_scope.

(** The slice [s[:k]]: the first [k] characters for [k >= 0], all but the
    last [-k] for [k < 0]. *)
Definition py_prefix (k : Z) (s : string) : string :=
  if 0 <=? k
  then String.substring 0 (Z.to_nat k) s
  else String.substring 0 (String.length s - Z.to_nat (- k)) s.

Definition truncate_summary (max_length : Z) (summary : string) : string :=
  if max_length <? Z.of_nat (String.length summary)
  then py_prefix (max_length - 3) summary +:+ "..."
  else summary.

Lemma length_append (s t : string) :
  String.length (s +:+ t) = (String.length s + String.length t)%nat.
Proof. induction s as [| c s IH]; simpl; [reflexivity | now rewrite IH]. Qed.

Lemma length_substring_0 (n : nat) (s : string) :
  String.length (String.substring 0 n s) = Nat.min n (String.length s).
Proof.
  revert n. induction s as [| c s IH]; intros [| n]; simpl; try reflexivity.
  now rewrite IH.
Qed.

Lemma length_py_prefix k s :
  Z.of_nat (String.length (py_prefix k s))
  = if 0 <=? k then Z.min k (Z.of_nat (String.length s))
    else Z.max 0 (Z.of_nat (String.length s) + k).
Proof.
  unfold py_prefix. destruct (Z.leb_spec 0 k); rewrite length_substring_0; lia.
Qed.

Lemma length_truncate_summary max_length summary :
  Z.of_nat (String.length (truncate_summary max_length summary))
  = if max_length <? Z.of_nat (String.length summary)
    then (if 0 <=? max_length - 3 then max_length
          else Z.max 0 (Z.of_nat (String.length summary) + (max_length - 3)) + 3)
    else Z.of_nat (String.length summary).
Proof.
  unfold truncate_summary.
  destruct (Z.ltb_spec max_length (Z.of_nat (String.length summary))); [| reflexivity].
  rewrite length_append, Nat2Z.inj_add, length_py_prefix. simpl.
  destruct (Z.leb_spec 0 (max_length - 3)); lia.
Qed.

Lemma truncate_summary_fits max_length summary :
  Z.of_nat (String.length summary) <= max_length ->
  truncate_summary max_length summary = summary.
Proof.
  intros Hfits. unfold truncate_summary.
  destruct (Z.ltb_spec max_length (Z.of_nat (String.length summary))); [lia |].
  reflexivity.
Qed.

(** X1. With a maximum of at least 3 characters the truncated summary is
    never longer than the maximum, and a summary that fits is returned
    unchanged. *)
Theorem X1_truncate_summary_bound max_length summary :
  3 <= max_length ->
  Z.of_nat (String.length (truncate_summary max_length summary)) <= max_length
  /\ (Z.of_nat (String.length summary) <= max_length ->
      truncate_summary max_length summary = summary).
Proof.
  intros Hmax. split; [| apply truncate_summary_fits].
  rewrite length_truncate_summary.
  destruct (Z.ltb_spec max_length (Z.of_nat (String.length summary)));
    [| assumption].
  destruct (Z.leb_spec 0 (max_length - 3)); lia.
Qed.

Lemma X1_truncate_summary_bound_witness :
  Z.of_nat (String.length (truncate_summary 10 "a rather long summary")) <= 10
  /\ (Z.of_nat (String.length "a rather long summary") <= 10 ->
      truncate_summary 10 "a rather long summary" = "a rather long summary").
Proof. apply X1_truncate_summary_bound. lia. Defined.

(** X2. A summary longer than a maximum of at least 3 becomes its first
    [max_length - 3] characters followed by the marker ["..."]: exactly
    [max_length] characters, and truncating again changes nothing. *)
Theorem X2_truncate_summary_shape max_length summary :
  3 <= max_length ->
  max_length < Z.of_nat (String.length summary) ->
  truncate_summary max_length summary
  = String.substring 0 (Z.to_nat (max_length - 3)) summary +:+ "..."
  /\ Z.of_nat (String.length (truncate_summary max_length summary)) = max_length
  /\ truncate_summary max_length (truncate_summary max_length summary)
     = truncate_summary max_length summary.
Proof.
  intros Hmax Hlong.
  assert (Hlen : Z.of_nat (String.length (truncate_summary max_length summary))
                 = max_length).
  { rewrite length_truncate_summary.
    destruct (Z.ltb_spec max_length (Z.of_nat (String.length summary))); [| lia].
    destruct (Z.leb_spec 0 (max_length - 3)); lia. }
  split; [| split; [exact Hlen | apply truncate_summary_fits; lia]].
  unfold truncate_summary, py_prefix.
  destruct (Z.ltb_spec max_length (Z.of_nat (String.length summary))); [| lia].
  destruct (Z.leb_spec 0 (max_length - 3)); [reflexivity | lia].
Qed.

Lemma X2_truncate_summary_shape_witness :
  truncate_summary 10 "a rather long summary" = "a rathe..."
  /\ Z.of_nat (String.length (truncate_summary 10 "a rather long summary")) = 10
  /\ truncate_summary 10 (truncate_summary 10 "a rather long summary")
     = truncate_summary 10 "a rather long summary".
Proof.
  apply (X2_truncate_summary_shape 10 "a rather long summary");
    [lia | reflexivity].
Defined.

(** X3. With a maximum below 3 the slice index [max_length - 3] is
    negative and the marker alone is too long: every summary that gets
    truncated comes out longer than the maximum. *)
Theorem X3_truncate_summary_small_maximum max_length summary :
  max_length < 3 ->
  max_length < Z.of_nat (String.length summary) ->
  max_length < Z.of_nat (String.length (truncate_summary max_length summary))
  /\ 3 <= Z.of_nat (String.length (truncate_summary max_length summary)).
Proof.
  intros Hmax Hlong. rewrite length_truncate_summary.
  destruct (Z.ltb_spec max_length (Z.of_nat (String.length summary))); [| lia].
  destruct (Z.leb_spec 0 (max_length - 3)); lia.
Qed.

Lemma X3_truncate_summary_small_maximum_witness :
  2 < Z.of_nat (String.length (truncate_summary 2 "abcdef"))
  /\ 3 <= Z.of_nat (String.length (truncate_summary 2 "abcdef")).
Proof. apply X3_truncate_summary_small_maximum; reflexivity. Defined.

End Truncation.

(** ** More on the retry loop (text-summarization/pipeline.py) *)

Module PipelineLaws.

Import Pipeline.

Local Open Scope Z_scope.

Section Laws.

Variable backend : string -> nat -> option string.
Variable similarity : string -> string -> Q.
Variable request : SummarizationRequest.

(** The best score is the score of the best summary, and the best summary
    is a text some backend returned, unless nothing was recorded yet. *)
Definition coupled (st : loop_state) : Prop :=
  (best_summary st = "" /\ best_score st = 0%Q)
  \/ (best_score st = similarity (text_blob request) (best_summary st)
      /\ exists model n, backend model n = Some (best_summary st)).

(** The bookkeeping of attempts and backend invocations. *)
Definition counted (st : loop_state) : Prop :=
  (attempts st = 0 /\ calls st = [])
  \/ (1 <= attempts st <= retry_attempts request
      /\ (length (calls st) <= Z.to_nat (attempts st) + 1)%nat
      /\ (ai_model request = "local" ->
          (length (calls st) <= Z.to_nat (attempts st))%nat)).

Definition in_unit_interval (x : Q) : Prop := (0 <= x <= 1)%Q.

Lemma generate_with_model_cases model st :
  (exists summary n,
      backend model n = Some summary
      /\ fst (_generate_with_model backend model st) = Ok summary
      /\ calls (snd (_generate_with_model backend model st)) = calls st ++ [model])
  \/ (exists e,
        fst (_generate_with_model backend model st) = Raise e
        /\ (calls (snd (_generate_with_model backend model st)) = calls st
            \/ calls (snd (_generate_with_model backend model st))
               = calls st ++ [model])).
Proof.
  unfold _generate_with_model.
  destruct (_ || _); [| right; eexists; split; [reflexivity | now left]].
  destruct (backend model (length (calls st))) as [summary |] eqn:Hb.
  - left. exists summary, (length (calls st)). auto.
  - right. eexists. split; [reflexivity | now right].
Qed.

Lemma generate_with_model_fields model st :
  let st' := snd (_generate_with_model backend model st) in
  attempts st' = attempts st /\ best_summary st' = best_summary st
  /\ best_score st' = best_score st /\ st_model_used st' = st_model_used st
  /\ warnings st' = warnings st.
Proof.
  unfold _generate_with_model.
  destruct (_ || _); [destruct (backend _ _) |]; simpl; auto.
Qed.

Lemma coupled_track_best summary st model n :
  backend model n = Some summary ->
  coupled st ->
  coupled (track_best summary (similarity (text_blob request) summary) st).
Proof.
  intros Hb Hc. unfold track_best.
  destruct (Qlt_bool _ _); [| exact Hc].
  right. simpl. eauto.
Qed.

Lemma coupled_ext st st' :
  best_summary st' = best_summary st -> best_score st' = best_score st ->
  coupled st -> coupled st'.
Proof. unfold coupled. intros -> ->. auto. Qed.

Lemma in_range_track_best summary score st :
  in_unit_interval score -> in_unit_interval (best_score st) ->
  in_unit_interval (best_score (track_best summary score st)).
Proof. unfold track_best. destruct (Qlt_bool _ _); auto. Qed.

(** What the two blocks of a pass keep. *)
Lemma primary_attempt_keeps st :
  let st' := fst (primary_attempt backend similarity request st) in
  (coupled st -> coupled st')
  /\ ((forall a b, in_unit_interval (similarity a b)) ->
      in_unit_interval (best_score st) -> in_unit_interval (best_score st'))
  /\ st_model_used st' = st_model_used st.
Proof.
  unfold primary_attempt.
  destruct (generate_with_model_cases (ai_model request) st)
    as [(summary & n & Hb & Hres & _) | (e & Hres & _)];
    pose proof (generate_with_model_fields (ai_model request) st)
      as (_ & Hsum & Hscore & Hused & _);
    destruct (_generate_with_model backend (ai_model request) st) as [r st1];
    simpl in *; subst r.
  - assert (Hc : coupled st -> coupled (track_best summary
                   (similarity (text_blob request) summary) st1)).
    { intros Hc. eapply coupled_track_best; [exact Hb |].
      now apply (coupled_ext st). }
    assert (Hr : (forall a b, in_unit_interval (similarity a b)) ->
                 in_unit_interval (best_score st) ->
                 in_unit_interval (best_score (track_best summary
                   (similarity (text_blob request) summary) st1))).
    { intros Hsim Hbest. apply in_range_track_best; [apply Hsim |].
      now rewrite Hscore. }
    assert (Hu : st_model_used (track_best summary
                   (similarity (text_blob request) summary) st1)
                 = st_model_used st).
    { unfold track_best. destruct (Qlt_bool _ _); simpl; exact Hused. }
    destruct (Qle_bool _ _); simpl; [auto |].
    destruct (_ <? _); simpl; auto.
  - simpl. split; [now apply coupled_ext |].
    split; [intros _ Hbest; now rewrite Hscore | exact Hused].
Qed.

Lemma fallback_attempt_keeps st :
  let st' := fst (fallback_attempt backend similarity request st) in
  (coupled st -> coupled st')
  /\ ((forall a b, in_unit_interval (similarity a b)) ->
      in_unit_interval (best_score st) -> in_unit_interval (best_score st')).
Proof.
  unfold fallback_attempt.
  destruct (_ && _); [| simpl; auto].
  destruct (generate_with_model_cases "local" st)
    as [(summary & n & Hb & Hres & _) | (e & Hres & _)];
    pose proof (generate_with_model_fields "local" st)
      as (_ & Hsum & Hscore & _ & _);
    destruct (_generate_with_model backend "local" st) as [r st1];
    simpl in *; subst r; simpl.
  - split.
    + intros Hc. eapply coupled_track_best; [exact Hb |].
      now apply (coupled_ext st).
    + intros Hsim Hbest. apply in_range_track_best; [apply Hsim |].
      simpl. now rewrite Hscore.
  - split; [now apply coupled_ext | intros _ Hbest; now rewrite Hscore].
Qed.

(** A pass keeps every property that the two blocks keep. *)
Lemma loop_body_keeps (P : loop_state -> Prop) st :
  (forall s, P s -> P (incr_attempts s)) ->
  (forall s, P s -> P (fst (primary_attempt backend similarity request s))) ->
  (forall s, P s -> P (fst (fallback_attempt backend similarity request s))) ->
  P st -> P (flow_state (loop_body backend similarity request st)).
Proof.
  intros Hincr Hprim Hfall HP. unfold loop_body.
  specialize (Hprim _ (Hincr _ HP)).
  destruct (primary_attempt _ _ _ _) as [st1 [|]]; simpl in *; [exact Hprim |].
  specialize (Hfall _ Hprim).
  destruct (fallback_attempt _ _ _ _) as [st2 [|]]; simpl in *; [exact Hfall |].
  destruct (_ <=? _); exact Hfall.
Qed.

(** An invariant of the passes holds of the state the loop ends in. *)
Lemma retry_loop_invariant (P : loop_state -> Prop) fuel st r st' :
  (forall s, P s -> attempts s < retry_attempts request ->
             P (flow_state (loop_body backend similarity request s))) ->
  P st ->
  retry_loop backend similarity request fuel st = Some (r, st') ->
  P st' /\ (forall st1, r = Ok st1 -> st1 = st').
Proof.
  intros Hstep. revert st.
  induction fuel as [| fuel IH]; intros st HP; [discriminate |].
  simpl. destruct (Z.ltb_spec (attempts st) (retry_attempts request)).
  - specialize (Hstep st HP H).
    destruct (loop_body backend similarity request st) as [s | s | e s];
      simpl in Hstep.
    + now apply IH.
    + intros [= <- <-]. split; [exact Hstep | now intros st1 [= <-]].
    + intros [= <- <-]. split; [exact Hstep | discriminate].
  - intros [= <- <-]. split; [exact HP | now intros st1 [= <-]].
Qed.

Lemma loop_body_attempts st :
  attempts (flow_state (loop_body backend similarity request st))
  = attempts st + 1.
Proof.
  unfold loop_body.
  pose proof (primary_attempt_attempts backend similarity request
                (incr_attempts st)) as Hp.
  destruct (primary_attempt _ _ _ _) as [st1 [|]]; simpl in *; [exact Hp |].
  pose proof (fallback_attempt_attempts backend similarity request st1) as Hf.
  destruct (fallback_attempt _ _ _ _) as [st2 [|]]; simpl in *; [congruence |].
  destruct (_ <=? _); simpl; congruence.
Qed.

(** The loop makes at least one pass when there is budget. *)
Lemma retry_loop_progress fuel st r st' :
  retry_loop backend similarity request fuel st = Some (r, st') ->
  attempts st < retry_attempts request ->
  attempts st < attempts st'.
Proof.
  revert st. induction fuel as [| fuel IH]; intros st; [discriminate |].
  simpl. destruct (Z.ltb_spec (attempts st) (retry_attempts request)); [| lia].
  pose proof (loop_body_attempts st) as Hatt.
  destruct (loop_body backend similarity request st) as [s | s | e s] eqn:Hbody;
    simpl in Hatt.
  - intros Hloop _. apply loop_body_continue in Hbody as [_ Hlt].
    specialize (IH s Hloop Hlt). lia.
  - intros [= <- <-] _. lia.
  - intros [= <- <-] _. lia.
Qed.

(** The fallback block invokes the local backend only for a request whose
    model is not the local one, and only in the first pass. *)
Lemma fallback_attempt_calls_guard st :
  calls (fst (fallback_attempt backend similarity request st)) = calls st
  \/ (attempts st = 1 /\ ai_model request <> "local"
      /\ calls (fst (fallback_attempt backend similarity request st))
         = calls st ++ ["local"]).
Proof.
  unfold fallback_attempt.
  case_bool_decide as Hlocal; simpl; [now left |].
  destruct (Z.eqb_spec (attempts st) 1) as [Hone |]; [| now left].
  right. split; [assumption |]. split; [assumption |].
  unfold _generate_with_model. simpl.
  destruct (backend _ _); simpl; [now rewrite track_best_calls | reflexivity].
Qed.

Lemma loop_body_counted st :
  counted st -> attempts st < retry_attempts request ->
  counted (flow_state (loop_body backend similarity request st)).
Proof.
  intros Hc Hlt. right.
  pose proof (loop_body_attempts st) as Hatt.
  assert (Hcalls : exists st1 st2,
             (calls st1 = calls st \/ calls st1 = calls st ++ [ai_model request])
             /\ (calls st2 = calls st1
                 \/ (attempts st = 0 /\ ai_model request <> "local"
                     /\ calls st2 = calls st1 ++ ["local"]))
             /\ calls (flow_state (loop_body backend similarity request st))
                = calls st2).
  { unfold loop_body.
    pose proof (primary_attempt_calls backend similarity request
                  (incr_attempts st)) as Hp.
    pose proof (primary_attempt_attempts backend similarity request
                  (incr_attempts st)) as Hpa.
    destruct (primary_attempt _ _ _ _) as [st1 b1]. simpl in Hp, Hpa.
    pose proof (fallback_attempt_calls_guard st1) as Hf.
    destruct b1; simpl.
    - exists st1, st1. auto.
    - destruct (fallback_attempt _ _ _ _) as [st2 b2]. simpl in Hf.
      exists st1, st2. split; [exact Hp |]. split.
      + destruct Hf as [Hf | (Hone & Hne & Hf)]; [now left |].
        right. repeat split; [lia | assumption | assumption].
      + destruct b2; simpl; [reflexivity |]. now destruct (_ <=? _). }
  destruct Hcalls as (st1 & st2 & H1 & H2 & ->).
  rewrite Hatt.
  assert (Hlen1 : (length (calls st1) <= length (calls st) + 1)%nat).
  { destruct H1 as [-> | ->]; [lia |]. rewrite length_app. simpl. lia. }
  destruct Hc as [[H0 Hnil] | (Hrange & Hlen & Hlocal)].
  - rewrite Hnil in Hlen1. simpl in Hlen1. rewrite H0.
    split; [lia |]. split.
    + destruct H2 as [-> | (_ & _ & ->)]; [simpl; lia |].
      rewrite length_app. simpl. lia.
    + intros Hmodel. destruct H2 as [-> | (_ & Hne & _)]; [simpl; lia | congruence].
  - split; [lia |].
    destruct H2 as [-> | (Hzero & _)]; [| lia].
    split; [lia |].
    intros Hmodel. specialize (Hlocal Hmodel). lia.
Qed.

(** What a response that was built is made of. *)
Lemma build_response_ok st response :
  build_response request st = Ok response ->
  Qlt_bool (best_score st) (semantic_threshold request) = false
  /\ exists id,
       request_id request = Some id
       /\ response
          = {| refined_text := best_summary st;
               semantic_score := best_score st;
               resp_request_id := id;
               original_length := String.length (text_blob request);
               summary_length := String.length (best_summary st);
               model_used := st_model_used st;
               retry_count := attempts st - 1;
               resp_status := match warnings st with
                              | [] => success
                              | _ :: _ => partial_success
                              end;
               resp_warnings := warnings st |}.
Proof.
  unfold build_response, refused_fields.
  destruct (Qlt_bool _ _); [discriminate |].
  destruct (_ && _), (request_id request) as [id |]; simpl; try discriminate.
  intros [= <-]. eauto.
Qed.

(** With a score in range, the only field the response model can refuse
    is a missing [request_id]. *)
Lemma build_response_raise st e :
  (semantic_threshold request <= best_score st)%Q ->
  in_unit_interval (best_score st) ->
  build_response request st = Raise e ->
  e = ValidationError ["request_id"] /\ request_id request = None.
Proof.
  intros Hthr [H0 H1]. unfold build_response, refused_fields.
  destruct (Qlt_bool _ _) eqn:Hlt.
  { apply Qlt_bool_iff in Hlt. now apply Qlt_not_le in Hlt. }
  apply Qle_bool_iff in H0, H1. rewrite H0, H1. simpl.
  destruct (request_id request); [discriminate |].
  intros [= <-]. split; reflexivity.
Qed.

Lemma generate_summary_final_state r st :
  generate_summary backend similarity request = Some (r, st) ->
  counted st /\ coupled st
  /\ ((forall a b, in_unit_interval (similarity a b)) ->
      in_unit_interval (best_score st))
  /\ (1 <= retry_attempts request -> 1 <= attempts st)
  /\ ((exists response, r = Ok response /\ build_response request st = Ok response)
      \/ (exists e, r = Raise e
                    /\ (e = RuntimeError "No active exception to reraise"
                        \/ build_response request st = Raise e))).
Proof.
  unfold generate_summary, generate_summary_fuel.
  destruct (retry_loop backend similarity request (loop_fuel request)
              (initial_state request)) as [[r0 st0] |] eqn:Hloop;
    [| discriminate].
  assert (Hcounted : counted st0).
  { eapply (retry_loop_invariant counted); [| | exact Hloop].
    - intros s. apply loop_body_counted.
    - now left. }
  assert (Hcoupled : coupled st0).
  { eapply (retry_loop_invariant coupled); [| | exact Hloop].
    - intros s Hs _. apply loop_body_keeps; [auto | | | exact Hs].
      + intros s0. apply primary_attempt_keeps.
      + intros s0. apply fallback_attempt_keeps.
    - now left. }
  assert (Hrange : (forall a b, in_unit_interval (similarity a b)) ->
                   in_unit_interval (best_score st0)).
  { intros Hsim.
    eapply (retry_loop_invariant (fun s => in_unit_interval (best_score s)));
      [| | exact Hloop].
    - intros s Hs _. apply loop_body_keeps; [auto | | | exact Hs].
      + intros s0. now apply primary_attempt_keeps.
      + intros s0. now apply fallback_attempt_keeps.
    - simpl. unfold in_unit_interval. lra. }
  assert (Hprogress : 1 <= retry_attempts request -> 1 <= attempts st0).
  { intros Hbudget. apply retry_loop_progress in Hloop; simpl in *; lia. }
  destruct (retry_loop_invariant (fun _ => True) _ _ _ _ (fun _ _ _ => I) I Hloop)
    as [_ Hsame].
  destruct r0 as [st1 | e].
  - rewrite (Hsame st1 eq_refl). intros [= <- <-].
    repeat (split; [assumption |]).
    destruct (build_response request st0) as [response | e] eqn:Hbuild; eauto.
  - intros [= <- <-]. repeat (split; [assumption |]).
    right. exists e. split; [reflexivity |]. left.
    eapply retry_loop_raise, Hloop.
Qed.

(** X4. Every run ends, and invokes backends at most [retry_attempts + 1]
    times in all (one per attempt and the one fallback); a request for the
    local model gets at most [retry_attempts] invocations. *)
Theorem X4_backend_invocations_bounded :
  exists r st,
    generate_summary backend similarity request = Some (r, st)
    /\ (length (calls st) <= Z.to_nat (retry_attempts request) + 1)%nat
    /\ (ai_model request = "local" ->
        (length (calls st) <= Z.to_nat (retry_attempts request))%nat).
Proof.
  destruct (generate_summary_total backend similarity request) as [[r st] Hrun].
  exists r, st. split; [exact Hrun |].
  apply generate_summary_final_state in Hrun as (Hcounted & _).
  destruct Hcounted as [[_ ->] | (Hrange & Hlen & Hlocal)]; simpl.
  - split; [lia | intros _; lia].
  - split; [lia |]. intros Hmodel. specialize (Hlocal Hmodel). lia.
Qed.

(** X5. For a request whose model is not the local one, the local backend
    is invoked at most once in the whole run. *)
Theorem X5_fallback_invoked_at_most_once :
  ai_model request <> "local" ->
  exists r st,
    generate_summary backend similarity request = Some (r, st)
    /\ (local_calls st <= 1)%nat.
Proof.
  intros Hmodel.
  destruct (generate_summary_total backend similarity request) as [[r st] Hrun].
  exists r, st. split; [exact Hrun |].
  eapply generate_summary_fallback_once; eauto.
Qed.

(** X6. A response always meets the threshold, and its score belongs to
    its text: either nothing was recorded (empty text, score 0) or the
    score is the scorer's value for the returned text, which is a text
    some backend produced. *)
Theorem X6_response_score_belongs_to_text response st :
  generate_summary backend similarity request = Some (Ok response, st) ->
  (semantic_threshold request <= semantic_score response)%Q
  /\ ((refined_text response = "" /\ semantic_score response = 0%Q)
      \/ (semantic_score response
          = similarity (text_blob request) (refined_text response)
          /\ exists model n, backend model n = Some (refined_text response))).
Proof.
  intros Hrun.
  apply generate_summary_final_state in Hrun
    as (_ & Hcoupled & _ & _ & [(resp & [= <-] & Hbuild) | (e & [=] & _)]).
  apply build_response_ok in Hbuild as (Hthr & id & _ & ->).
  simpl. split; [| exact Hcoupled].
  apply Qnot_lt_le. intros Hlt. apply Qlt_bool_iff in Hlt. congruence.
Qed.

(** X7. With a budget of at least one attempt, the [retry_count] of a
    response is at least 0 and below the budget. *)
Theorem X7_retry_count_range response st :
  1 <= retry_attempts request ->
  generate_summary backend similarity request = Some (Ok response, st) ->
  0 <= retry_count response < retry_attempts request.
Proof.
  intros Hbudget Hrun.
  apply generate_summary_final_state in Hrun
    as (Hcounted & _ & _ & Hone & [(resp & [= <-] & Hbuild) | (e & [=] & _)]).
  specialize (Hone Hbudget).
  apply build_response_ok in Hbuild as (_ & id & _ & ->). simpl.
  destruct Hcounted as [[H0 _] | (Hrange & _)]; lia.
Qed.

Lemma retry_loop_raise_budget fuel st e st' :
  retry_loop backend similarity request fuel st = Some (Raise e, st') ->
  retry_attempts request <= attempts st'.
Proof.
  revert st. induction fuel as [| fuel IH]; intros st; [discriminate |].
  simpl. destruct (_ <? _); [| discriminate].
  destruct (loop_body backend similarity request st) as [s | s | e1 s] eqn:Hbody.
  - apply IH.
  - discriminate.
  - intros [= <- <-]. now apply loop_body_raised in Hbody as [_ Hge].
Qed.

(** The exceptions of the method, with a budget of at least one attempt
    and scores in range: the bare [raise], or the response model refusing
    a request that has no [request_id]. *)
Lemma generate_summary_raise e st :
  1 <= retry_attempts request ->
  (forall a b, (0 <= similarity a b <= 1)%Q) ->
  generate_summary backend similarity request = Some (Raise e, st) ->
  (e = RuntimeError "No active exception to reraise"
   /\ attempts st = retry_attempts request)
  \/ (e = ValidationError ["request_id"]
      /\ request_id request = None
      /\ (semantic_threshold request <= best_score st)%Q).
Proof.
  intros Hbudget Hsim Hrun.
  pose proof Hrun as Hfinal.
  apply generate_summary_final_state in Hfinal as (Hcounted & _ & Hrange & _).
  specialize (Hrange Hsim).
  unfold generate_summary, generate_summary_fuel in Hrun.
  destruct (retry_loop backend similarity request (loop_fuel request)
              (initial_state request)) as [[[st1 | e1] st0] |] eqn:Hloop;
    [| | discriminate].
  - right. injection Hrun as Hbuild <-.
    destruct (retry_loop_invariant (fun _ => True) _ _ _ _ (fun _ _ _ => I) I Hloop)
      as [_ Hsame].
    rewrite (Hsame st1 eq_refl) in *.
    apply retry_loop_ok in Hloop; [| simpl; lia].
    destruct (build_response_raise _ _ Hloop Hrange Hbuild) as [-> Hid].
    repeat split; assumption.
  - left. injection Hrun as <- <-.
    split; [eapply retry_loop_raise, Hloop |].
    apply retry_loop_raise_budget in Hloop.
    destruct Hcounted as [[H0 _] | (Hle & _)]; lia.
Qed.

(** X8. With a budget of at least one attempt and a scorer with values
    in [0, 1], two exceptions can leave the method
    [SummarizationPipeline.generate_summary]: the [RuntimeError] of the
    bare [raise], after the whole budget was used, and pydantic's
    [ValidationError] for [request_id], when the threshold was reached for
    a request whose [request_id] is [None]. Whether every backend failed
    or the threshold was missed, neither [ModelError] nor
    [SemanticThresholdError] comes out. *)
Theorem X8_exceptions_leaving_the_method e st :
  1 <= retry_attempts request ->
  (forall a b, (0 <= similarity a b <= 1)%Q) ->
  generate_summary backend similarity request = Some (Raise e, st) ->
  (e = RuntimeError "No active exception to reraise"
   /\ attempts st = retry_attempts request)
  \/ (e = ValidationError ["request_id"]
      /\ request_id request = None
      /\ (semantic_threshold request <= best_score st)%Q).
Proof. apply generate_summary_raise. Qed.

Definition known_model (model : string) : Prop :=
  model = "openai" \/ model = "huggingface" \/ model = "local".

Lemma known_model_dispatch model :
  known_model model ->
  bool_decide (model = "openai") || bool_decide (model = "huggingface")
  || bool_decide (model = "local") = true.
Proof. intros [-> | [-> | ->]]; reflexivity. Qed.

(** X10. When the first summary of the requested backend reaches the
    threshold (with a positive score), the run ends after that single
    backend invocation. A request that carries a [request_id] gets the
    summary at once: status [success], no warning, [retry_count] 0, the
    requested model as [model_used]. For a request whose [request_id] is
    [None] the response model refuses the response, and what leaves is
    pydantic's [ValidationError]. *)
Theorem X10_first_attempt_success summary :
  1 <= retry_attempts request ->
  known_model (ai_model request) ->
  backend (ai_model request) 0%nat = Some summary ->
  (semantic_threshold request <= similarity (text_blob request) summary)%Q ->
  (0 < similarity (text_blob request) summary <= 1)%Q ->
  exists st,
    generate_summary backend similarity request
    = Some (match request_id request with
            | Some id =>
                Ok {| refined_text := summary;
                      semantic_score := similarity (text_blob request) summary;
                      resp_request_id := id;
                      original_length := String.length (text_blob request);
                      summary_length := String.length summary;
                      model_used := ai_model request;
                      retry_count := 0;
                      resp_status := success;
                      resp_warnings := [] |}
            | None => Raise (ValidationError ["request_id"])
            end, st)
    /\ calls st = [ai_model request].
Proof.
  intros Hbudget Hknown Hb Hthr [Hpos Hle].
  unfold generate_summary, generate_summary_fuel, loop_fuel. simpl.
  assert (Hcond : (0 <? retry_attempts request) = true) by (apply Z.ltb_lt; lia).
  rewrite Hcond.
  unfold loop_body, primary_attempt, _generate_with_model. simpl.
  rewrite (known_model_dispatch _ Hknown), Hb.
  apply Qle_bool_iff in Hthr as Hthr'. rewrite Hthr'.
  unfold track_best. simpl.
  apply Qlt_bool_iff in Hpos as Hpos'. rewrite Hpos'.
  unfold build_response, refused_fields. simpl.
  assert (Hnot : Qlt_bool (similarity (text_blob request) summary)
                   (semantic_threshold request) = false).
  { apply not_true_iff_false. rewrite Qlt_bool_iff. now apply Qle_not_lt. }
  rewrite Hnot.
  assert (H0 : Qle_bool 0 (similarity (text_blob request) summary) = true)
    by (apply Qle_bool_iff; lra).
  apply Qle_bool_iff in Hle. rewrite H0, Hle. simpl.
  destruct (request_id request); eexists; split; reflexivity.
Qed.

(** X11. When the first invocation of a hosted backend fails and the
    local backend then produces a summary that reaches the threshold, the
    run ends after these two invocations. A request that carries a
    [request_id] gets that summary with [model_used] "local", status
    [partial_success] and the single warning about the fallback; for a
    request whose [request_id] is [None] what leaves is pydantic's
    [ValidationError]. *)
Theorem X11_fallback_after_primary_failure summary :
  1 <= retry_attempts request ->
  ai_model request = "openai" \/ ai_model request = "huggingface" ->
  backend (ai_model request) 0%nat = None ->
  backend "local" 1%nat = Some summary ->
  (semantic_threshold request <= similarity (text_blob request) summary)%Q ->
  (0 < similarity (text_blob request) summary <= 1)%Q ->
  exists st,
    generate_summary backend similarity request
    = Some (match request_id request with
            | Some id =>
                Ok {| refined_text := summary;
                      semantic_score := similarity (text_blob request) summary;
                      resp_request_id := id;
                      original_length := String.length (text_blob request);
                      summary_length := String.length summary;
                      model_used := "local";
                      retry_count := 0;
                      resp_status := partial_success;
                      resp_warnings := [FallbackToLocal (ai_model request)] |}
            | None => Raise (ValidationError ["request_id"])
            end, st)
    /\ calls st = [ai_model request; "local"].
Proof.
  intros Hbudget Hmodel Hfail Hb Hthr [Hpos Hle].
  unfold generate_summary, generate_summary_fuel, loop_fuel. simpl.
  assert (Hcond : (0 <? retry_attempts request) = true) by (apply Z.ltb_lt; lia).
  rewrite Hcond.
  unfold loop_body, primary_attempt, fallback_attempt, _generate_with_model.
  simpl.
  assert (Hknown : known_model (ai_model request))
    by (destruct Hmodel; [now left | right; now left]).
  rewrite (known_model_dispatch _ Hknown), Hfail. simpl.
  assert (Hnonlocal : bool_decide (ai_model request = "local") = false)
    by (apply bool_decide_eq_false; destruct Hmodel as [-> | ->]; discriminate).
  rewrite Hnonlocal. simpl. rewrite Hb. simpl.
  apply Qle_bool_iff in Hthr as Hthr'. rewrite Hthr'.
  unfold track_best. simpl.
  apply Qlt_bool_iff in Hpos as Hpos'. rewrite Hpos'.
  unfold build_response, refused_fields. simpl.
  assert (Hnot : Qlt_bool (similarity (text_blob request) summary)
                   (semantic_threshold request) = false).
  { apply not_true_iff_false. rewrite Qlt_bool_iff. now apply Qle_not_lt. }
  rewrite Hnot.
  assert (H0 : Qle_bool 0 (similarity (text_blob request) summary) = true)
    by (apply Qle_bool_iff; lra).
  apply Qle_bool_iff in Hle. rewrite H0, Hle. simpl.
  destruct (request_id request); eexists; split; reflexivity.
Qed.

End Laws.

(** *** Runs of the stub backends *)

(** The primary backend fails once; the local model answers with a text
    scoring 0.92. *)
Definition primary_down_local_up (model : string) (n : nat) : option string :=
  if bool_decide (model = "local") then Some "third summary" else None.

Lemma X4_backend_invocations_bounded_witness :
  exists r st,
    generate_summary primary_succeeds_local_fails engineered_similarity
      (sample_request "openai" 3) = Some (r, st)
    /\ (length (calls st) <= 4)%nat
    /\ (ai_model (sample_request "openai" 3) = "local" ->
        (length (calls st) <= 3)%nat).
Proof.
  apply (X4_backend_invocations_bounded primary_succeeds_local_fails
           engineered_similarity (sample_request "openai" 3)).
Defined.

Lemma X5_fallback_invoked_at_most_once_witness :
  exists r st,
    generate_summary shared_stub engineered_similarity
      (sample_request "openai" 3) = Some (r, st)
    /\ (local_calls st <= 1)%nat.
Proof.
  apply (X5_fallback_invoked_at_most_once shared_stub engineered_similarity
           (sample_request "openai" 3)).
  discriminate.
Defined.

Lemma X6_response_score_belongs_to_text_witness :
  exists response st,
    generate_summary shared_stub engineered_similarity
      (sample_request "local" 3) = Some (Ok response, st)
    /\ (percent 80 <= semantic_score response)%Q
    /\ ((refined_text response = "" /\ semantic_score response = 0%Q)
        \/ (semantic_score response
            = engineered_similarity
                (text_blob (sample_request "local" 3)) (refined_text response)
            /\ exists model n, shared_stub model n = Some (refined_text response))).
Proof.
  eexists _, _. split; [vm_compute; reflexivity |].
  eapply (X6_response_score_belongs_to_text shared_stub engineered_similarity
            (sample_request "local" 3)).
  vm_compute. reflexivity.
Defined.

Lemma X7_retry_count_range_witness :
  exists response st,
    generate_summary shared_stub engineered_similarity
      (sample_request "local" 3) = Some (Ok response, st)
    /\ 0 <= retry_count response < 3.
Proof.
  eexists _, _. split; [vm_compute; reflexivity |].
  eapply (X7_retry_count_range shared_stub engineered_similarity
            (sample_request "local" 3)).
  - vm_compute. discriminate.
  - vm_compute. reflexivity.
Defined.

Lemma engineered_similarity_range a b :
  (0 <= engineered_similarity a b <= 1)%Q.
Proof.
  unfold engineered_similarity.
  repeat case_bool_decide; unfold percent; split; vm_compute; discriminate.
Qed.

Lemma X8_exceptions_leaving_the_method_witness :
  exists e st,
    generate_summary poor_backend engineered_similarity
      (sample_request "openai" 2) = Some (Raise e, st)
    /\ ((e = RuntimeError "No active exception to reraise"
         /\ attempts st = retry_attempts (sample_request "openai" 2))
        \/ (e = ValidationError ["request_id"]
            /\ request_id (sample_request "openai" 2) = None
            /\ (semantic_threshold (sample_request "openai" 2)
                <= best_score st)%Q)).
Proof.
  eexists _, _. split; [vm_compute; reflexivity |].
  eapply (X8_exceptions_leaving_the_method poor_backend engineered_similarity
            (sample_request "openai" 2)).
  - vm_compute. discriminate.
  - apply engineered_similarity_range.
  - vm_compute. reflexivity.
Defined.

(** The request as a client sends it with [request_id] set to null. *)
Definition null_request_id (request : SummarizationRequest)
  : SummarizationRequest :=
  {| text_blob := text_blob request;
     semantic_threshold := semantic_threshold request;
     ai_model := ai_model request;
     api_token := api_token request;
     max_summary_length := max_summary_length request;
     summary_ratio := summary_ratio request;
     retry_attempts := retry_attempts request;
     request_id := None |}.

Example null_request_id_is_refused :
  exists st,
    generate_summary (fun _ _ => Some "third summary") engineered_similarity
      (null_request_id (sample_request "huggingface" 3))
    = Some (Raise (ValidationError ["request_id"]), st)
    /\ calls st = ["huggingface"].
Proof. eexists. split; vm_compute; reflexivity. Qed.

Lemma X10_first_attempt_success_witness :
  exists st,
    generate_summary (fun _ _ => Some "third summary") engineered_similarity
      (sample_request "huggingface" 3)
    = Some (Ok {| refined_text := "third summary";
                  semantic_score := percent 92;
                  resp_request_id := "req-1";
                  original_length := 50;
                  summary_length := 13;
                  model_used := "huggingface";
                  retry_count := 0;
                  resp_status := success;
                  resp_warnings := [] |}, st)
    /\ calls st = ["huggingface"].
Proof.
  apply (X10_first_attempt_success (fun _ _ => Some "third summary")
           engineered_similarity (sample_request "huggingface" 3)
           "third summary").
  - vm_compute. discriminate.
  - right. left. reflexivity.
  - reflexivity.
  - vm_compute. discriminate.
  - split; [reflexivity | vm_compute; discriminate].
Defined.

Lemma X11_fallback_after_primary_failure_witness :
  exists st,
    generate_summary primary_down_local_up engineered_similarity
      (sample_request "openai" 3)
    = Some (Ok {| refined_text := "third summary";
                  semantic_score := percent 92;
                  resp_request_id := "req-1";
                  original_length := 50;
                  summary_length := 13;
                  model_used := "local";
                  retry_count := 0;
                  resp_status := partial_success;
                  resp_warnings := [FallbackToLocal "openai"] |}, st)
    /\ calls st = ["openai"; "local"].
Proof.
  apply (X11_fallback_after_primary_failure primary_down_local_up
           engineered_similarity (sample_request "openai" 3) "third summary").
  - vm_compute. discriminate.
  - left. reflexivity.
  - reflexivity.
  - reflexivity.
  - vm_compute. discriminate.
  - split; [reflexivity | vm_compute; discriminate].
Defined.

End PipelineLaws.

(** ** The summarization endpoint (text-summarization/main.py) *)

Module Endpoint.

Import Pipeline.

Local Open Scope Z_scope.

Inductive http_error : Type :=
| HTTPException (status_code : Z) (error_code : string).

(** The outcome of the constructor [SummarizationPipeline()]:
    [_initialize_models] turns every failure of loading the models into
    [ModelError]. *)
Inductive construction : Type :=
| Constructed
| ConstructionFails (msg : string).

Section Service.

Variable backend : string -> nat -> option string.
Variable similarity : string -> string -> Q.
Variable constructor : construction.

(** pipeline.py, [get_pipeline]. [_pipeline_instance] is the module-level
    singleton: [true] stands for an instance, [false] for [None]. A
    constructor that raises leaves it [None]. *)
Definition get_pipeline (_pipeline_instance : bool) : result unit * bool :=
  if _pipeline_instance then (Ok tt, true)
  else match constructor with
       | Constructed => (Ok tt, true)
       | ConstructionFails msg =>
           (Raise (ModelError ("Model initialization failed: " +:+ msg)), false)
       end.

(** pipeline.py, the module-level [generate_summary]:
    [pipeline = get_pipeline()] and then the method of that instance. The
    last component says whether backends were reached. *)
Definition generate_summary (request : SummarizationRequest)
    (_pipeline_instance : bool)
  : option (result SummarizationResponse * bool * option loop_state) :=
  match get_pipeline _pipeline_instance with
  | (Raise e, instance) => Some (Raise e, instance, None)
  | (Ok _, instance) =>
      match Pipeline.generate_summary backend similarity request with
      | Some (r, st) => Some (r, instance, Some st)
      | None => None
      end
  end.

(** main.py, [summarize_text], from its [try] statement on: the call of
    [generate_summary] and the three handlers. The metric and log calls
    between the call and [return response] are taken to return. *)
Definition summarize_text (request : SummarizationRequest)
    (_pipeline_instance : bool)
  : option ((SummarizationResponse + http_error) * bool * option loop_state) :=
  match generate_summary request _pipeline_instance with
  | None => None
  | Some (Ok response, instance, st) => Some (inl response, instance, st)
  | Some (Raise (SemanticThresholdError _ _ _), instance, st) =>
      Some (inr (HTTPException 400 "SEMANTIC_THRESHOLD_NOT_MET"), instance, st)
  | Some (Raise (ModelError _), instance, st) =>
      Some (inr (HTTPException 500 "MODEL_ERROR"), instance, st)
  | Some (Raise _, instance, st) =>
      Some (inr (HTTPException 500 "INTERNAL_ERROR"), instance, st)
  end.

(** X9. Behind the endpoint, with a budget of at least one attempt and a
    scorer with values in [0, 1]: the call is answered; the answer is 500
    [MODEL_ERROR] exactly when there is no pipeline instance yet and its
    construction fails, and then no backend was invoked; in every other
    case the answer is the response or 500 [INTERNAL_ERROR]. The handler
    for [SemanticThresholdError] (400) is never entered. *)
Theorem X9_summarize_text_answers request _pipeline_instance :
  1 <= retry_attempts request ->
  (forall a b, (0 <= similarity a b <= 1)%Q) ->
  exists answer instance st,
    summarize_text request _pipeline_instance = Some (answer, instance, st)
    /\ (forall error_code, answer <> inr (HTTPException 400 error_code))
    /\ (answer = inr (HTTPException 500 "MODEL_ERROR")
        <-> _pipeline_instance = false
            /\ exists msg, constructor = ConstructionFails msg)
    /\ (answer = inr (HTTPException 500 "MODEL_ERROR") ->
        instance = false /\ st = None)
    /\ ((exists response, answer = inl response)
        \/ answer = inr (HTTPException 500 "MODEL_ERROR")
        \/ answer = inr (HTTPException 500 "INTERNAL_ERROR")).
Proof.
  intros Hbudget Hsim.
  unfold summarize_text, generate_summary.
  assert (Hrun : get_pipeline _pipeline_instance = (Ok tt, true) ->
    exists answer st,
      match Pipeline.generate_summary backend similarity request with
      | Some (r, st) => Some (r, true, Some st)
      | None => None
      end = Some (answer, true, Some st)
      /\ ((exists response, answer = Ok response)
          \/ answer = Raise (RuntimeError "No active exception to reraise")
          \/ answer = Raise (ValidationError ["request_id"]))).
  { intros _.
    destruct (generate_summary_total backend similarity request)
      as [[[response | e] st] Hrun]; rewrite Hrun.
    - exists (Ok response), st. split; [reflexivity |]. left. eauto.
    - exists (Raise e), st. split; [reflexivity |]. right.
      destruct (PipelineLaws.generate_summary_raise _ _ _ e st Hbudget Hsim Hrun)
        as [[-> _] | [-> _]]; auto. }
  unfold get_pipeline in *.
  destruct _pipeline_instance; [| destruct constructor as [| msg] eqn:Hc].
  - destruct (Hrun eq_refl) as (answer & st & -> & Hanswer).
    destruct Hanswer as [[response ->] | [-> | ->]];
      eexists _, _, _; (split; [reflexivity |]);
      (split; [discriminate |]);
      (split; [split; [discriminate | intros [[=] _]] |]);
      (split; [discriminate |]); eauto.
  - destruct (Hrun eq_refl) as (answer & st & -> & Hanswer).
    destruct Hanswer as [[response ->] | [-> | ->]];
      eexists _, _, _; (split; [reflexivity |]);
      (split; [discriminate |]);
      (split; [split; [discriminate | intros [_ [msg [=]]]] |]);
      (split; [discriminate |]); eauto.
  - eexists _, _, _. split; [reflexivity |].
    split; [discriminate |].
    split; [split; eauto |].
    split; [split; reflexivity |]. auto.
Qed.

End Service.

(** The models cannot be loaded at the first request. *)
Lemma X9_summarize_text_answers_witness :
  exists answer instance st,
    summarize_text poor_backend engineered_similarity
      (ConstructionFails "no such model") (sample_request "openai" 2) false
    = Some (answer, instance, st)
    /\ (forall error_code, answer <> inr (HTTPException 400 error_code))
    /\ (answer = inr (HTTPException 500 "MODEL_ERROR")
        <-> false = false
            /\ exists msg, ConstructionFails "no such model"
                           = ConstructionFails msg)
    /\ (answer = inr (HTTPException 500 "MODEL_ERROR") ->
        instance = false /\ st = None)
    /\ ((exists response, answer = inl response)
        \/ answer = inr (HTTPException 500 "MODEL_ERROR")
        \/ answer = inr (HTTPException 500 "INTERNAL_ERROR")).
Proof.
  apply (X9_summarize_text_answers poor_backend engineered_similarity
           (ConstructionFails "no such model") (sample_request "openai" 2)
           false).
  - vm_compute. discriminate.
  - apply PipelineLaws.engineered_similarity_range.
Defined.

(** With an instance in place, the failure of
    [test_semantic_threshold_not_met_failure] is answered with
    [INTERNAL_ERROR]. *)
Example exhausted_budget_is_internal_error :
  exists instance st,
    summarize_text poor_backend engineered_similarity Constructed
      (sample_request "openai" 2) true
    = Some (inr (HTTPException 500 "INTERNAL_ERROR"), instance, st).
Proof. eexists _, _. vm_compute. reflexivity. Qed.

End Endpoint.

(** ** More on the JWKS cache and the validator (context-service/auth.py) *)

Module AuthLaws.

Import Auth.

Local Open Scope Q_scope.

Section Cache.

Variable endpoint : nat -> http_outcome.
Variable clock : nat -> Q.

Lemma get_jwks_ok force m ks m1 :
  get_jwks endpoint clock force m = (Ok ks, m1) ->
  _keys_cache m1 = Some ks /\ cache_ttl m1 = cache_ttl m
  /\ (fetches m1 = fetches m
      \/ (fetches m1 = S (fetches m)
          /\ _cache_timestamp m1 = clock (clock_reads m)
          /\ endpoint (fetches m) = Keys ks)).
Proof.
  assert (Hfetch : forall m0,
             fetch_jwks endpoint (clock (clock_reads m)) (tick m0) = (Ok ks, m1) ->
             _keys_cache m1 = Some ks /\ cache_ttl m1 = cache_ttl m0
             /\ fetches m1 = S (fetches m0)
             /\ _cache_timestamp m1 = clock (clock_reads m)
             /\ endpoint (fetches m0) = Keys ks).
  { intros m0. unfold fetch_jwks. simpl.
    destruct (endpoint (fetches m0)) as [| | | name | body | | | ks'] eqn:He;
      try discriminate.
    - destruct (lacks_keys body) as [[|] |]; discriminate.
    - intros [= <- <-]. simpl. auto. }
  unfold get_jwks, cached_jwks.
  destruct force; simpl.
  - intros H. apply Hfetch in H as (? & ? & ? & ? & ?). auto 6.
  - destruct (_keys_cache m) as [cached |] eqn:Hc.
    + destruct (Qlt_bool _ _).
      * intros [= <- <-]. simpl. auto.
      * intros H. apply Hfetch in H as (? & ? & ? & ? & ?). auto 6.
    + intros H. apply Hfetch in H as (? & ? & ? & ? & ?). auto 6.
Qed.

(** X12. After [get_jwks] has returned a key set, a call without
    [force_refresh] made while the cache is younger than the TTL returns the
    same key set and sends no request. *)
Theorem X12_get_jwks_served_from_cache force m ks m1 :
  get_jwks endpoint clock force m = (Ok ks, m1) ->
  clock (clock_reads m1) - _cache_timestamp m1 < inject_Z (cache_ttl m1) ->
  fst (get_jwks endpoint clock false m1) = Ok ks
  /\ fetches (snd (get_jwks endpoint clock false m1)) = fetches m1.
Proof.
  intros Hget Hage. apply get_jwks_ok in Hget as (Hcache & _).
  now rewrite (get_jwks_cached endpoint clock m1 ks Hcache Hage).
Qed.

(** X13. A call of [get_jwks] that raises has sent exactly one request
    and leaves the cached key set and its timestamp as they were: a failure
    is never cached as an empty key set. What it raises is [JWKSError] when
    the reply is one the function handles (a request error, an HTTP status
    error, a body that is not JSON, a body without [keys] or whose [keys]
    is not an array); on any other reply (a body that is null, a boolean
    or a number, a string or an array with ["keys"] in it, an exception of
    another class) it is [TypeError] or that exception. *)
Theorem X13_failed_fetch_keeps_cache force m e m1 :
  get_jwks endpoint clock force m = (Raise e, m1) ->
  _keys_cache m1 = _keys_cache m
  /\ _cache_timestamp m1 = _cache_timestamp m
  /\ fetches m1 = S (fetches m)
  /\ (handled (endpoint (fetches m)) = true -> exists msg, e = JWKSError msg)
  /\ (handled (endpoint (fetches m)) = false ->
      e = TypeError \/ exists name, e = OtherException name).
Proof.
  intros Hget.
  assert (Hstate : _keys_cache m1 = _keys_cache m
                   /\ _cache_timestamp m1 = _cache_timestamp m
                   /\ fetches m1 = S (fetches m)).
  { revert Hget. unfold get_jwks, fetch_jwks.
    destruct (cached_jwks _ _ _); [discriminate |]. simpl.
    destruct (endpoint _) as [| | | name | body | | |];
      try (intros [= <- <-]; simpl; auto).
    destruct (lacks_keys body) as [[|] |]; intros [= <- <-]; simpl; auto. }
  destruct Hstate as (Hcache & Htime & Hfetches).
  repeat (split; [assumption |]).
  eapply get_jwks_raise, Hget.
Qed.

(** X14. A cache that has reached the TTL is never served: the call
    returns a key set exactly when the endpoint delivers one, and that is
    the set returned; an outage surfaces as an error although keys are
    cached. *)
Theorem X14_expired_cache_not_served m old ks :
  _keys_cache m = Some old ->
  inject_Z (cache_ttl m) <= clock (clock_reads m) - _cache_timestamp m ->
  (fst (get_jwks endpoint clock false m) = Ok ks
   <-> endpoint (fetches m) = Keys ks)
  /\ fetches (snd (get_jwks endpoint clock false m)) = S (fetches m).
Proof.
  intros Hcache Hage. unfold get_jwks, cached_jwks, fetch_jwks.
  rewrite Hcache.
  assert (Hstale : Qlt_bool (clock (clock_reads m) - _cache_timestamp m)
                     (inject_Z (cache_ttl m)) = false).
  { apply not_true_iff_false. rewrite Qlt_bool_iff. now apply Qle_not_lt. }
  rewrite Hstale. simpl.
  destruct (endpoint (fetches m)) as [| | | name | body | | | ks'];
    try destruct (lacks_keys body) as [[|] |];
    simpl; (split; [| reflexivity]);
    split; try discriminate; intros [= ->]; reflexivity.
Qed.

Lemma get_key_by_kid_kid kid m key m1 :
  get_key_by_kid endpoint clock kid m = (Ok (Some key), m1) ->
  jwk_kid key = Some kid.
Proof.
  unfold get_key_by_kid.
  destruct (get_jwks endpoint clock false m) as [[jwks | e] m0]; [| discriminate].
  destruct (find_kid kid jwks) as [[k |] | e] eqn:Hfind; [| | discriminate].
  - intros [= <- <-]. now apply find_kid_some in Hfind.
  - destruct (get_jwks endpoint clock true m0) as [[jwks' | e] m2];
      [| discriminate].
    intros [= Hfind' <-]. now apply find_kid_some in Hfind'.
Qed.

Lemma get_key_by_kid_cached kid m key m1 :
  get_key_by_kid endpoint clock kid m = (Ok (Some key), m1) ->
  exists ks, _keys_cache m1 = Some ks /\ In (KeyObject key) ks.
Proof.
  unfold get_key_by_kid.
  destruct (get_jwks endpoint clock false m) as [[jwks | e] m0] eqn:H1;
    [| discriminate].
  destruct (find_kid kid jwks) as [[k |] | e] eqn:Hfind; [| | discriminate].
  - intros [= <- <-]. apply find_kid_some in Hfind as [Hin Hkid].
    apply get_jwks_ok in H1 as [Hcache _]. eauto.
  - destruct (get_jwks endpoint clock true m0) as [[jwks' | e] m2] eqn:H2;
      [| discriminate].
    intros [= Hfind' <-]. apply find_kid_some in Hfind' as [Hin Hkid].
    apply get_jwks_ok in H2 as [Hcache _]. eauto.
Qed.

(** X15. A key returned by [get_key_by_kid] carries the requested [kid]
    and is an entry of the key set the manager holds afterwards. *)
Theorem X15_get_key_by_kid_sound kid m key m1 :
  get_key_by_kid endpoint clock kid m = (Ok (Some key), m1) ->
  jwk_kid key = Some kid
  /\ exists ks, _keys_cache m1 = Some ks /\ In (KeyObject key) ks.
Proof.
  intros Hkey. split.
  - eapply get_key_by_kid_kid, Hkey.
  - eapply get_key_by_kid_cached, Hkey.
Qed.

(** X16. A [kid] found in a cache of key objects younger than the TTL is
    answered from the cache: no request is sent and the cache is left as it
    was. *)
Theorem X16_known_kid_costs_no_fetch kid m ks key :
  _keys_cache m = Some (objects ks) ->
  clock (clock_reads m) - _cache_timestamp m < inject_Z (cache_ttl m) ->
  In key ks -> jwk_kid key = Some kid ->
  exists key',
    get_key_by_kid endpoint clock kid m = (Ok (Some key'), tick m)
    /\ jwk_kid key' = Some kid /\ In key' ks.
Proof.
  intros Hcache Hage Hin Hkid. unfold get_key_by_kid.
  rewrite (get_jwks_cached endpoint clock m _ Hcache Hage).
  rewrite find_kid_objects.
  destruct (find _ ks) as [key' |] eqn:Hfind.
  - exists key'. apply find_some in Hfind as [Hin' Hkid'].
    apply bool_decide_eq_true in Hkid'. auto.
  - exfalso. apply (find_none _ _ Hfind) in Hin.
    apply bool_decide_eq_false in Hin. contradiction.
Qed.

End Cache.

#[local] Existing Instance result_bind.

Lemma bind_ok {A B : Type} (r : result A) (k : A -> result B) (b : B) :
  r ≫= k = Ok b -> exists a, r = Ok a /\ k a = Ok b.
Proof. destruct r as [a | e]; [eauto | discriminate]. Qed.

Lemma check_ok (cond : bool) (msg : string) (u : unit) :
  check cond msg = Ok u -> cond = true.
Proof. destruct cond; [reflexivity | discriminate]. Qed.

Lemma validate_payload_ok payload required_tenant_id required_scopes now :
  _validate_payload payload required_tenant_id required_scopes now = Ok tt ->
  (exists sub, payload !! "sub" = Some (JStr sub) /\ sub <> "")
  /\ is_Some (payload !! "iat") /\ is_Some (payload !! "exp")
  /\ (forall tenant, required_tenant_id = Some tenant -> tenant <> "" ->
      payload !! "tenant_id" = Some (JStr tenant))
  /\ (forall scopes scope, required_scopes = Some scopes -> In scope scopes ->
      exists token_scopes,
        payload !! "scopes" = Some (JStrList token_scopes)
        /\ In scope token_scopes)
  /\ (forall iat, payload !! "iat" = Some (JNum iat) -> ~ iat == 0 ->
      now - iat <= inject_Z (24 * 3600)).
Proof.
  unfold _validate_payload. intros H.
  apply bind_ok in H as ([] & Hclaims%check_ok & H).
  apply bind_ok in H as ([] & Hsub%check_ok & H).
  apply bind_ok in H as ([] & Htenant & H).
  apply bind_ok in H as ([] & Hscopes & Hiat).
  simpl in Hclaims.
  apply andb_true_iff in Hclaims as [_ Hclaims].
  apply andb_true_iff in Hclaims as [Hiat' Hclaims].
  apply andb_true_iff in Hclaims as [Hexp _].
  apply bool_decide_eq_true in Hiat', Hexp.
  split; [| split; [exact Hiat' | split; [exact Hexp |]]].
  { unfold is_nonempty_str in Hsub.
    destruct (payload !! "sub") as [[| | | sub | |] |]; try discriminate.
    exists sub. split; [reflexivity |].
    apply negb_true_iff, bool_decide_eq_false in Hsub. exact Hsub. }
  split; [| split].
  - intros tenant -> Hne.
    rewrite bool_decide_eq_false_2 in Htenant by exact Hne.
    apply bind_ok in Htenant as ([] & _ & Hmatch%check_ok).
    unfold is_str in Hmatch.
    destruct (payload !! "tenant_id") as [[| | | t | |] |]; try discriminate.
    apply bool_decide_eq_true in Hmatch. now subst t.
  - intros scopes scope -> Hin.
    destruct scopes as [| scope0 scopes]; [destruct Hin |].
    destruct (default (JStrList []) (payload !! "scopes"))
      as [| | | | token_scopes |] eqn:Hdefault; try discriminate.
    apply check_ok in Hscopes.
    rewrite forallb_forall in Hscopes. specialize (Hscopes scope Hin).
    apply bool_decide_eq_true, list_elem_of_In in Hscopes.
    exists token_scopes. split; [| exact Hscopes].
    destruct (payload !! "scopes") as [claim |]; simpl in Hdefault.
    + now subst claim.
    + injection Hdefault as <-. destruct Hscopes.
  - intros iat Hclaim Hnz. rewrite Hclaim in Hiat.
    destruct (Qeq_bool iat 0) eqn:Hz.
    + apply Qeq_bool_iff in Hz. contradiction.
    + apply check_ok, negb_true_iff in Hiat.
      apply Qnot_lt_le. intros Hlt. apply Qlt_bool_iff in Hlt. congruence.
Qed.

(** X17. A payload that [_validate_payload] lets through has a non-empty
    string subject, carries [iat] and [exp], has the required tenant as its
    [tenant_id] when one is required, lists every required scope, and its
    numeric [iat] is at most 24 hours old. *)
Theorem X17_validated_payload payload required_tenant_id required_scopes now :
  _validate_payload payload required_tenant_id required_scopes now = Ok tt ->
  (exists sub, payload !! "sub" = Some (JStr sub) /\ sub <> "")
  /\ is_Some (payload !! "iat") /\ is_Some (payload !! "exp")
  /\ (forall tenant, required_tenant_id = Some tenant -> tenant <> "" ->
      payload !! "tenant_id" = Some (JStr tenant))
  /\ (forall scopes scope, required_scopes = Some scopes -> In scope scopes ->
      exists token_scopes,
        payload !! "scopes" = Some (JStrList token_scopes)
        /\ In scope token_scopes)
  /\ (forall iat, payload !! "iat" = Some (JNum iat) -> ~ iat == 0 ->
      now - iat <= inject_Z (24 * 3600)).
Proof. apply validate_payload_ok. Qed.

Section Validator.

Variable endpoint : nat -> http_outcome.
Variable clock : nat -> Q.
Variable public_key : Type.
Variable get_unverified_header : string -> option jose_header.
Variable jwk_construct : jwk -> option public_key.
Variable jose_decode : string -> public_key -> list string -> decode_outcome.

Lemma validate_token_ok
    token required_tenant_id required_scopes m payload m1 :
  validate_token endpoint clock public_key get_unverified_header jwk_construct
    jose_decode token required_tenant_id required_scopes m = (Ok payload, m1) ->
  exists header kid jwk_data key m0 ks,
    get_unverified_header token = Some header
    /\ hdr_kid header = Some kid /\ kid <> ""
    /\ get_key_by_kid endpoint clock kid m = (Ok (Some jwk_data), m0)
    /\ m1 = tick m0
    /\ _keys_cache m1 = Some ks /\ In (KeyObject jwk_data) ks
    /\ jwk_kid jwk_data = Some kid
    /\ jwk_construct jwk_data = Some key
    /\ jose_decode token key ["RS256"; "ES256"] = Decoded payload
    /\ _validate_payload payload required_tenant_id required_scopes
         (clock (clock_reads m0)) = Ok tt.
Proof.
  unfold validate_token.
  destruct (get_unverified_header token) as [header |]; [| discriminate].
  destruct (hdr_kid header) as [kid |] eqn:Hkid; [| discriminate].
  case_bool_decide as Hne; [discriminate |].
  destruct (get_key_by_kid endpoint clock kid m) as [[[jwk_data |] | e] m0] eqn:Hkey;
    [| discriminate | destruct e; discriminate].
  pose proof (get_key_by_kid_kid _ _ _ _ _ _ Hkey) as Hjwk.
  destruct (get_key_by_kid_cached _ _ _ _ _ _ Hkey) as (ks & Hcache & Hin).
  destruct (jwk_construct jwk_data) as [key |] eqn:Hcons; [| discriminate].
  destruct (jose_decode token key allowed_algorithms) eqn:Hdec; try discriminate.
  destruct (_validate_payload _ _ _ _) as [[] | e] eqn:Hval; [| discriminate].
  simpl. intros [= <- <-].
  exists header, kid, jwk_data, key, m0, ks. auto 12.
Qed.

(** X18. A token is accepted only if its header names a non-empty [kid],
    the lookup of that [kid] in the manager returns a key, which carries
    the [kid] and is an entry of the key set the manager holds afterwards,
    the key can be constructed, python-jose decodes the token against that
    key with the algorithm list RS256/ES256, and the decoded payload, which
    is what is returned, passes [_validate_payload] at the next reading of
    the clock. *)
Theorem X18_accepted_token
    token required_tenant_id required_scopes m payload m1 :
  validate_token endpoint clock public_key get_unverified_header jwk_construct
    jose_decode token required_tenant_id required_scopes m = (Ok payload, m1) ->
  exists header kid jwk_data key m0 ks,
    get_unverified_header token = Some header
    /\ hdr_kid header = Some kid /\ kid <> ""
    /\ get_key_by_kid endpoint clock kid m = (Ok (Some jwk_data), m0)
    /\ m1 = tick m0
    /\ _keys_cache m1 = Some ks /\ In (KeyObject jwk_data) ks
    /\ jwk_kid jwk_data = Some kid
    /\ jwk_construct jwk_data = Some key
    /\ jose_decode token key ["RS256"; "ES256"] = Decoded payload
    /\ _validate_payload payload required_tenant_id required_scopes
         (clock (clock_reads m0)) = Ok tt.
Proof. apply validate_token_ok. Qed.

End Validator.

(** *** Runs against the concrete issuer *)

Definition endpoint_down (_ : nat) : http_outcome := RequestError.

Definition clock_at_5000 (_ : nat) : Q := 5000.

Definition acme_payload : gmap string json :=
  {[ "sub" := JStr "user-1"; "iat" := JNum 90; "exp" := JNum 200;
     "tenant_id" := JStr "acme"; "scopes" := JStrList ["read"; "write"] ]}.

Lemma X12_get_jwks_served_from_cache_witness :
  exists m1,
    get_jwks rotated_endpoint clock_at_100 true warm_manager
    = (Ok (objects [key_a; key_b]), m1)
    /\ fst (get_jwks rotated_endpoint clock_at_100 false m1)
       = Ok (objects [key_a; key_b])
    /\ fetches (snd (get_jwks rotated_endpoint clock_at_100 false m1))
       = fetches m1.
Proof.
  eexists. split; [reflexivity |].
  eapply (X12_get_jwks_served_from_cache rotated_endpoint clock_at_100 true
            warm_manager).
  - reflexivity.
  - vm_compute. reflexivity.
Defined.

Lemma X13_failed_fetch_keeps_cache_witness :
  exists e m1,
    get_jwks null_body_endpoint clock_at_100 true warm_manager = (Raise e, m1)
    /\ _keys_cache m1 = Some (objects [key_a])
    /\ _cache_timestamp m1 = 0
    /\ fetches m1 = 2%nat
    /\ (handled (null_body_endpoint 1%nat) = true -> exists msg, e = JWKSError msg)
    /\ (handled (null_body_endpoint 1%nat) = false ->
        e = TypeError \/ exists name, e = OtherException name).
Proof.
  eexists _, _. split; [reflexivity |].
  eapply (X13_failed_fetch_keeps_cache null_body_endpoint clock_at_100 true
            warm_manager).
  reflexivity.
Defined.

Lemma X14_expired_cache_not_served_witness :
  (fst (get_jwks endpoint_down clock_at_5000 false warm_manager)
   = Ok (objects [key_a])
   <-> endpoint_down 1%nat = Keys (objects [key_a]))
  /\ fetches (snd (get_jwks endpoint_down clock_at_5000 false warm_manager))
     = 2%nat.
Proof.
  apply (X14_expired_cache_not_served endpoint_down clock_at_5000 warm_manager
           (objects [key_a]) (objects [key_a])).
  - reflexivity.
  - vm_compute. discriminate.
Defined.

Lemma X15_get_key_by_kid_sound_witness :
  exists m1,
    get_key_by_kid rotated_endpoint clock_at_100 "key-b" warm_manager
    = (Ok (Some key_b), m1)
    /\ jwk_kid key_b = Some "key-b"
    /\ exists ks, _keys_cache m1 = Some ks /\ In (KeyObject key_b) ks.
Proof.
  eexists. split; [reflexivity |].
  eapply (X15_get_key_by_kid_sound rotated_endpoint clock_at_100 "key-b"
            warm_manager).
  reflexivity.
Defined.

Lemma X16_known_kid_costs_no_fetch_witness :
  exists key',
    get_key_by_kid endpoint_down clock_at_100 "key-a" warm_manager
    = (Ok (Some key'), tick warm_manager)
    /\ jwk_kid key' = Some "key-a" /\ In key' [key_a].
Proof.
  apply (X16_known_kid_costs_no_fetch endpoint_down clock_at_100 "key-a"
           warm_manager [key_a] key_a).
  - reflexivity.
  - vm_compute. reflexivity.
  - left. reflexivity.
  - reflexivity.
Defined.

Lemma X17_validated_payload_witness :
  (exists sub, acme_payload !! "sub" = Some (JStr sub) /\ sub <> "")
  /\ is_Some (acme_payload !! "iat") /\ is_Some (acme_payload !! "exp")
  /\ (forall tenant, Some "acme" = Some tenant -> tenant <> "" ->
      acme_payload !! "tenant_id" = Some (JStr tenant))
  /\ (forall scopes scope, Some ["read"] = Some scopes -> In scope scopes ->
      exists token_scopes,
        acme_payload !! "scopes" = Some (JStrList token_scopes)
        /\ In scope token_scopes)
  /\ (forall iat, acme_payload !! "iat" = Some (JNum iat) -> ~ iat == 0 ->
      100 - iat <= inject_Z (24 * 3600)).
Proof.
  apply (X17_validated_payload acme_payload (Some "acme") (Some ["read"]) 100).
  vm_compute. reflexivity.
Defined.

Lemma X18_accepted_token_witness :
  exists payload m1,
    validate_token rotated_endpoint clock_at_100 string toy_header
      toy_construct toy_decode "rs256.token" None None warm_manager
    = (Ok payload, m1)
    /\ exists header kid jwk_data key m0 ks,
        toy_header "rs256.token" = Some header
        /\ hdr_kid header = Some kid /\ kid <> ""
        /\ get_key_by_kid rotated_endpoint clock_at_100 kid warm_manager
           = (Ok (Some jwk_data), m0)
        /\ m1 = tick m0
        /\ _keys_cache m1 = Some ks /\ In (KeyObject jwk_data) ks
        /\ jwk_kid jwk_data = Some kid
        /\ toy_construct jwk_data = Some key
        /\ toy_decode "rs256.token" key ["RS256"; "ES256"] = Decoded payload
        /\ _validate_payload payload None None (clock_at_100 (clock_reads m0))
           = Ok tt.
Proof.
  eexists _, _. split; [vm_compute; reflexivity |].
  eapply (X18_accepted_token rotated_endpoint clock_at_100 string toy_header
            toy_construct toy_decode "rs256.token" None None warm_manager).
  vm_compute. reflexivity.
Defined.

End AuthLaws.

(** ** The middleware of the context service (context-service/middleware.py)
    and [validate_jwt_token] (context-service/auth.py) *)

Module Middleware.

Import Auth.

Inductive http_error : Type :=
| HTTPException (status_code : Z) (error_code : string).

(** What a middleware does with a request: pass it on (here with the
    payload stored in [request.state.jwt_payload], if any) or answer it. *)
Inductive verdict : Type :=
| CallNext (jwt_payload : option (gmap string json))
| Reject (e : http_error).

(** [str.lower] on ASCII. *)
Definition lower_char (c : ascii) : ascii :=
  let n := nat_of_ascii c in
  if (65 <=? n)%nat && (n <=? 90)%nat then ascii_of_nat (n + 32) else c.

Fixpoint lower (s : string) : string :=
  match s with
  | EmptyString => EmptyString
  | String c s' => String (lower_char c) (lower s')
  end.

(** [HeaderValidationMiddleware._is_valid_tenant_id] *)
Definition invalid_patterns : list string :=
  [".."; "//"; "\\"; "admin"; "system"; "root"].

Definition tenant_char (c : ascii) : bool :=
  Repository.is_alnum c || Ascii.eqb c "-"%char || Ascii.eqb c "_"%char.

Definition _is_valid_tenant_id (tenant_id : string) : bool :=
  if bool_decide (tenant_id = "")
     || (String.length tenant_id <? 3)%nat || (64 <? String.length tenant_id)%nat
  then false
  else if negb (forallb tenant_char (String.list_ascii_of_string tenant_id))
  then false
  else if existsb (fun pattern => contains pattern (lower tenant_id))
            invalid_patterns
  then false
  else true.

(** The paths [JWTValidationMiddleware] lets through unauthenticated. *)
Definition exempt_paths : list string :=
  ["/healthz"; "/metrics"; "/docs"; "/redoc"; "/openapi.json"; "/"].

Section Chain.

Variable endpoint : nat -> http_outcome.
Variable clock : nat -> Q.
Variable public_key : Type.
Variable get_unverified_header : string -> option jose_header.
Variable jwk_construct : jwk -> option public_key.
Variable jose_decode : string -> public_key -> list string -> decode_outcome.

(** FastAPI's [get_authorization_scheme_param]: the header value split
    into scheme and parameter. *)
Variable get_authorization_scheme_param : string -> string * string.

(** [validate_jwt_token] of auth.py: the validator's
    [JWTValidationError] becomes a 401, anything else a 500. *)
Definition validate_jwt_token (token : string) (tenant_id : option string)
    (m : JWKSManager) : (gmap string json + http_error) * JWKSManager :=
  match validate_token endpoint clock public_key get_unverified_header
          jwk_construct jose_decode token tenant_id None m with
  | (Ok payload, m') => (inl payload, m')
  | (Raise (JWTValidationError _), m') =>
      (inr (HTTPException 401 "INVALID_TOKEN"), m')
  | (Raise _, m') => (inr (HTTPException 500 "AUTH_SERVICE_ERROR"), m')
  end.

(** [JWTValidationMiddleware.dispatch] up to [call_next]:
    [authorization] is the Authorization header, [state_tenant_id] the
    [tenant_id] that [HeaderValidationMiddleware] left in the request
    state. *)
Definition dispatch (enable_validation : bool) (path : string)
    (authorization state_tenant_id : option string) (m : JWKSManager)
  : verdict * JWKSManager :=
  if negb enable_validation || bool_decide (path ∈ exempt_paths)
  then (CallNext None, m)
  else
    match authorization with
    | None => (Reject (HTTPException 401 "MISSING_AUTHORIZATION"), m)
    | Some header =>
        if bool_decide (header = "")
        then (Reject (HTTPException 401 "MISSING_AUTHORIZATION"), m)
        else
          let '(scheme, token) := get_authorization_scheme_param header in
          if negb (bool_decide (lower scheme = "bearer"))
             || bool_decide (token = "")
          then (Reject (HTTPException 401 "INVALID_AUTHORIZATION"), m)
          else
            match validate_jwt_token token state_tenant_id m with
            | (inr e, m') => (Reject e, m')
            | (inl payload, m') =>
                match state_tenant_id with
                | Some tenant_id =>
                    if negb (bool_decide (tenant_id = ""))
                       && option_truthy (payload !! "tenant_id")
                       && negb (is_str tenant_id (payload !! "tenant_id"))
                    then (Reject (HTTPException 403 "TENANT_MISMATCH"), m')
                    else (CallNext (Some payload), m')
                | None => (CallNext (Some payload), m')
                end
            end
    end.

Lemma validate_jwt_token_ok token tenant_id m payload m' :
  validate_jwt_token token tenant_id m = (inl payload, m') ->
  (exists sub, payload !! "sub" = Some (JStr sub) /\ sub <> "")
  /\ (forall tenant, tenant_id = Some tenant -> tenant <> "" ->
      payload !! "tenant_id" = Some (JStr tenant)).
Proof.
  unfold validate_jwt_token.
  destruct (validate_token _ _ _ _ _ _ _ _ _ _) as [[p | e] m0] eqn:Hval;
    [| destruct e; discriminate].
  intros [= <- <-].
  apply AuthLaws.validate_token_ok
    in Hval as (header & kid & jwk_data & key & m1 & ks & Hval).
  destruct Hval as (_ & _ & _ & _ & _ & _ & _ & _ & _ & _ & Hp).
  apply AuthLaws.validate_payload_ok in Hp as (Hsub & _ & _ & Htenant & _).
  auto.
Qed.

Lemma is_str_refl tenant : is_str tenant (Some (JStr tenant)) = true.
Proof. simpl. now apply bool_decide_eq_true. Qed.

(** X19. A request outside the exempt paths is passed on only with a
    validated payload, whose subject is a non-empty string; and when the
    request carries a tenant id, the [tenant_id] claim of that payload is
    this tenant id. *)
Theorem X19_passed_request_is_authenticated
    path authorization state_tenant_id m jwt_payload m' :
  ~ In path exempt_paths ->
  dispatch true path authorization state_tenant_id m
  = (CallNext jwt_payload, m') ->
  exists payload,
    jwt_payload = Some payload
    /\ (exists sub, payload !! "sub" = Some (JStr sub) /\ sub <> "")
    /\ (forall tenant, state_tenant_id = Some tenant -> tenant <> "" ->
        payload !! "tenant_id" = Some (JStr tenant)).
Proof.
  intros Hpath. unfold dispatch. simpl.
  rewrite bool_decide_eq_false_2 by (now rewrite list_elem_of_In).
  destruct authorization as [header |]; [| discriminate].
  case_bool_decide; [discriminate |].
  destruct (get_authorization_scheme_param header) as [scheme token].
  destruct (_ || _); [discriminate |].
  destruct (validate_jwt_token token state_tenant_id m) as [[payload | e] m0]
    eqn:Hval; [| discriminate].
  apply validate_jwt_token_ok in Hval as [Hsub Htenant].
  destruct state_tenant_id as [tenant |].
  - destruct (_ && _); [discriminate |].
    intros [= <- <-]. exists payload. auto.
  - intros [= <- <-]. exists payload. auto.
Qed.

(** X20. The middleware never answers 403: a token whose [tenant_id]
    differs from the tenant id of the request has already been refused by
    [validate_jwt_token] with 401, so the tenant-mismatch branch of
    [dispatch] is not reachable. *)
Theorem X20_tenant_mismatch_is_never_403
    enable_validation path authorization state_tenant_id m error_code :
  fst (dispatch enable_validation path authorization state_tenant_id m)
  <> Reject (HTTPException 403 error_code).
Proof.
  unfold dispatch.
  destruct (_ || _); [discriminate |].
  destruct authorization as [header |]; [| discriminate].
  case_bool_decide; [discriminate |].
  destruct (get_authorization_scheme_param header) as [scheme token].
  destruct (_ || _); [discriminate |].
  destruct (validate_jwt_token token state_tenant_id m) as [[payload | e] m0]
    eqn:Hval.
  - apply validate_jwt_token_ok in Hval as [_ Htenant].
    destruct state_tenant_id as [tenant |]; [| discriminate].
    case_bool_decide as Hempty; simpl; [discriminate |].
    rewrite (Htenant tenant eq_refl Hempty), is_str_refl.
    rewrite andb_false_r. discriminate.
  - unfold validate_jwt_token in Hval.
    destruct (validate_token _ _ _ _ _ _ _ _ _ _) as [[p | e'] m1];
      [discriminate |].
    destruct e'; injection Hval as <- <-; simpl; discriminate.
Qed.

End Chain.

(** *** Tenant ids, from the header to the search path *)








Example separators_only_tenant :
  _is_valid_tenant_id "---" = true /\ Repository.valid_tenant_id "---" = false.
Proof. split; vm_compute; reflexivity. Qed.

Example reserved_word_tenant :
  _is_valid_tenant_id "my-Admin-1" = false
  /\ Repository.valid_tenant_id "my-Admin-1" = true.
Proof. split; vm_compute; reflexivity. Qed.


(** A stand-in for the framework and python-jose: the header value is
    split at its first space, and the one known token decodes to a payload
    of tenant "acme". *)
Fixpoint split_at_space (s : string) : string * string :=
  match s with
  | EmptyString => (EmptyString, EmptyString)
  | String c s' =>
      if Ascii.eqb c " "%char then (EmptyString, s')
      else let '(scheme, param) := split_at_space s' in (String c scheme, param)
  end.

Definition acme_header (token : string) : option jose_header :=
  if bool_decide (token = "acme.token")
  then Some {| hdr_kid := Some "key-a"; hdr_alg := Some "RS256" |}
  else None.

Definition acme_decode (token : string) (_ : string) (_ : list string)
  : decode_outcome :=
  if bool_decide (token = "acme.token") then Decoded AuthLaws.acme_payload
  else JWTError.

Example other_tenant_is_401 :
  fst (dispatch rotated_endpoint clock_at_100 string acme_header toy_construct
         acme_decode split_at_space true "/context"
         (Some "Bearer acme.token") (Some "globex") warm_manager)
  = Reject (HTTPException 401 "INVALID_TOKEN").
Proof. vm_compute. reflexivity. Qed.

Lemma X19_passed_request_is_authenticated_witness :
  exists payload m',
    dispatch rotated_endpoint clock_at_100 string acme_header toy_construct
      acme_decode split_at_space true "/context"
      (Some "bearer acme.token") (Some "acme") warm_manager
    = (CallNext (Some payload), m')
    /\ (exists sub, payload !! "sub" = Some (JStr sub) /\ sub <> "")
    /\ (forall tenant, Some "acme" = Some tenant -> tenant <> "" ->
        payload !! "tenant_id" = Some (JStr tenant)).
Proof.
  eexists _, _. split; [vm_compute; reflexivity |].
  eassert (Hrun : dispatch rotated_endpoint clock_at_100 string acme_header
                    toy_construct acme_decode split_at_space true "/context"
                    (Some "bearer acme.token") (Some "acme") warm_manager
                  = (CallNext (Some _), _)) by (vm_compute; reflexivity).
  assert (Hpath : ~ In "/context" exempt_paths)
    by (unfold exempt_paths; simpl; intuition discriminate).
  destruct (X19_passed_request_is_authenticated _ _ _ _ _ _ _ _ _ _ _ _ _
              Hpath Hrun) as (payload & [= <-] & Hrest).
  exact Hrest.
Defined.

End Middleware.

(** ** More on the rate limiter (text-summarization/main.py) *)

Module RateLimiterLaws.

Import RateLimiter.

Local Open Scope Q_scope.

(** The times of the checks of a burst that were admitted. *)
Fixpoint admitted_times (key : string) (times : list Q) (rl : InMemoryRateLimiter)
  : list Q :=
  match times with
  | [] => []
  | now :: times' =>
      let '(allowed, rl1) := is_allowed key now rl in
      (if allowed then [now] else []) ++ admitted_times key times' rl1
  end.

(** [chain_le t0 times]: the clock readings never decrease, from [t0] on. *)
Fixpoint chain_le (t0 : Q) (times : list Q) : Prop :=
  match times with
  | [] => True
  | t :: times' => t0 <= t /\ chain_le t times'
  end.

(** What a check leaves recorded for its key. *)
Lemma is_allowed_recorded key now rl :
  recorded key (snd (is_allowed key now rl))
  = List.filter (in_window (period rl) now) (recorded key rl)
    ++ (if fst (is_allowed key now rl) then [now] else []).
Proof.
  unfold is_allowed, recorded.
  destruct (_ <=? _)%Z; simpl; rewrite lookup_insert_eq; simpl;
    [now rewrite app_nil_r | reflexivity].
Qed.

(** X23. A check for one key leaves the record of every other key alone
    and does not change what a later check for another key answers. *)
Theorem X23_keys_are_independent key other now later rl :
  other <> key ->
  recorded other (snd (is_allowed key now rl)) = recorded other rl
  /\ fst (is_allowed other later (snd (is_allowed key now rl)))
     = fst (is_allowed other later rl).
Proof.
  intros Hne.
  assert (Hrec : recorded other (snd (is_allowed key now rl)) = recorded other rl).
  { unfold is_allowed, recorded.
    destruct (_ <=? _)%Z; simpl; now rewrite lookup_insert_ne. }
  split; [exact Hrec |].
  destruct (is_allowed_config key now rl) as [Hcalls Hperiod].
  unfold recorded in Hrec. unfold is_allowed at 1 3.
  rewrite Hrec, Hcalls, Hperiod.
  now destruct (_ <=? _)%Z.
Qed.

Lemma X23_keys_are_independent_witness :
  recorded "10.0.0.2" (snd (is_allowed "10.0.0.1" 10 after_burst))
  = recorded "10.0.0.2" after_burst
  /\ fst (is_allowed "10.0.0.2" 11 (snd (is_allowed "10.0.0.1" 10 after_burst)))
     = fst (is_allowed "10.0.0.2" 11 after_burst).
Proof. apply X23_keys_are_independent. discriminate. Defined.

(** X24. After a check at [now], every time recorded for the key is
    either the time of this check or lies less than one period before it,
    and was recorded before: older entries are swept at each check. *)
Theorem X24_check_sweeps_old_entries key now rl t :
  In t (recorded key (snd (is_allowed key now rl))) ->
  (In t (recorded key rl) /\ now - t < inject_Z (period rl))
  \/ (t = now /\ fst (is_allowed key now rl) = true).
Proof.
  rewrite is_allowed_recorded. intros Hin.
  apply in_app_or in Hin as [Hin | Hin].
  - left. apply filter_In in Hin as [Hin Hwin].
    split; [exact Hin |]. now apply Qlt_bool_iff.
  - right. destruct (fst (is_allowed key now rl)); [| destruct Hin].
    destruct Hin as [<- | []]. auto.
Qed.

Lemma X24_check_sweeps_old_entries_witness :
  (In 100 (recorded "10.0.0.1" after_burst)
   /\ 100 - 100 < inject_Z (period after_burst))
  \/ (100 = 100 /\ fst (is_allowed "10.0.0.1" 100 after_burst) = true).
Proof.
  apply (X24_check_sweeps_old_entries "10.0.0.1" 100 after_burst 100).
  vm_compute. left. reflexivity.
Defined.

Lemma filter_window_later period prev now (A : list Q) :
  prev <= now ->
  List.filter (in_window period now) (List.filter (in_window period prev) A)
  = List.filter (in_window period now) A.
Proof.
  intros Hle. induction A as [| t A IH]; [reflexivity |].
  simpl. destruct (in_window period prev t) eqn:Hprev; simpl.
  - now rewrite IH.
  - destruct (in_window period now t) eqn:Hnow; [| exact IH].
    exfalso. unfold in_window in *.
    apply Qlt_bool_iff in Hnow.
    apply not_true_iff_false in Hprev. apply Hprev, Qlt_bool_iff. lra.
Qed.

Lemma last_cons (t : Q) (times : list Q) (d : Q) :
  List.last (t :: times) d = List.last times t.
Proof.
  revert t d. induction times as [| t' times IH]; intros t d; [reflexivity |].
  change (List.last (t :: t' :: times) d) with (List.last (t' :: times) d).
  now rewrite !IH.
Qed.

(** The record of a key is the part of its admitted requests that lies in
    the window of the last check, and never holds more than the limit. *)
Lemma run_checks_recorded key times :
  forall rl A prev,
    (0 < period rl)%Z ->
    recorded key rl = List.filter (in_window (period rl) prev) A ->
    (Z.of_nat (length (recorded key rl)) <= Z.max 0 (calls rl))%Z ->
    chain_le prev times ->
    recorded key (snd (run_checks key times rl))
    = List.filter (in_window (period rl) (List.last times prev))
        (A ++ admitted_times key times rl)
    /\ (Z.of_nat (length (recorded key (snd (run_checks key times rl))))
        <= Z.max 0 (calls rl))%Z.
Proof.
  induction times as [| now times IH]; intros rl A prev Hperiod Hrec Hcap Hchain.
  - simpl. now rewrite app_nil_r.
  - destruct Hchain as [Hle Hchain].
    pose proof (is_allowed_recorded key now rl) as Hstep.
    destruct (is_allowed_config key now rl) as [Hcalls Hper].
    assert (Hnow : in_window (period rl) now now = true).
    { unfold in_window. apply Qlt_bool_iff.
      assert (now - now == 0) by ring. rewrite H.
      change 0 with (inject_Z 0). rewrite <- Zlt_Qlt. exact Hperiod. }
    assert (Hcap1 : (Z.of_nat (length (recorded key (snd (is_allowed key now rl))))
                     <= Z.max 0 (calls rl))%Z).
    { rewrite Hstep, length_app.
      pose proof (filter_length_le (in_window (period rl) now) (recorded key rl))
        as Hlen.
      unfold is_allowed.
      destruct (Z.leb_spec (calls rl)
                  (Z.of_nat (length (List.filter (in_window (period rl) now)
                                       (default [] (requests rl !! key))))));
        simpl; unfold recorded in *; lia. }
    rewrite Hrec, filter_window_later in Hstep by exact Hle.
    rewrite last_cons. cbn [run_checks admitted_times].
    destruct (is_allowed key now rl) as [allowed rl1]. cbn [fst snd] in *.
    specialize (IH rl1 (A ++ (if allowed then [now] else [])) now).
    rewrite Hcalls, Hper in IH. rewrite <- app_assoc in IH.
    destruct (run_checks key times rl1) as [rest rl2]. cbn [fst snd] in *.
    apply IH; [exact Hperiod | | exact Hcap1 | exact Hchain].
    rewrite Hstep, List.filter_app. f_equal.
    destruct allowed; simpl; [now rewrite Hnow | reflexivity].
Qed.

(** X25. The rate guarantee. For a key with nothing recorded, a positive
    period and a clock that never runs backwards: at every check, the
    requests admitted so far that lie less than one period before it, the
    check itself included, number at most the limit. *)
Theorem X25_admitted_per_window_bounded key t0 times rl :
  (0 < period rl)%Z ->
  recorded key rl = [] ->
  chain_le t0 times ->
  (Z.of_nat (length (List.filter
                       (in_window (period rl) (List.last times t0))
                       (admitted_times key times rl)))
   <= Z.max 0 (calls rl))%Z.
Proof.
  intros Hperiod Hnone Hchain.
  destruct (run_checks_recorded key times rl [] t0) as [Hrec Hcap];
    [exact Hperiod | now rewrite Hnone | rewrite Hnone; simpl; lia | exact Hchain |].
  simpl in Hrec. now rewrite Hrec in Hcap.
Qed.

Definition burst_times : list Q := [0; 1; 2; 61].

Example admitted_in_a_burst :
  admitted_times "10.0.0.1" burst_times (new_limiter 2 60) = [0; 1; 61].
Proof. vm_compute. reflexivity. Qed.

Lemma X25_admitted_per_window_bounded_witness :
  (Z.of_nat (length (List.filter
                       (in_window (period (new_limiter 2 60))
                          (List.last burst_times 0%Q))
                       (admitted_times "10.0.0.1" burst_times (new_limiter 2 60))))
   <= Z.max 0 (calls (new_limiter 2 60)))%Z.
Proof.
  apply X25_admitted_per_window_bounded.
  - reflexivity.
  - reflexivity.
  - simpl. repeat split; vm_compute; discriminate.
Defined.

End RateLimiterLaws.

(** ** More on the repository (context-service/repository.py) *)

Module RepositoryLaws.

Import Repository.

Local Open Scope Z_scope.

Section Postgres.

Variable search_path_of : string -> option (list string).

(** [ContextRepository.cleanup_expired_contexts]:
    [DELETE FROM contexts WHERE expires_at IS NOT NULL AND expires_at <= NOW()];
    the result is the number of rows of the command tag. *)
Definition cleanup_expired_contexts (tenant : string) (now : Z) (db : database)
  : result Z * database :=
  match get_connection search_path_of tenant db with
  | Raise e => (Raise (DatabaseError "Failed to cleanup contexts"), db)
  | Ok conn =>
      match resolve conn db with
      | None => (Raise (DatabaseError "Failed to cleanup contexts"), db)
      | Some (schema, tbl) =>
          let kept := filter (fun kv => live now kv.2 = true) tbl in
          let deleted := filter (fun kv => ~ live now kv.2 = true) tbl in
          (Ok (Z.of_nat (size deleted)), set_table schema kept db)
      end
  end.

(** A row that is not live stays so: time only moves past [expires_at]. *)
Lemma live_earlier now1 now2 row :
  now1 <= now2 -> live now2 row = true -> live now1 row = true.
Proof.
  unfold live. destruct (expires_at row); [| reflexivity].
  rewrite !Z.ltb_lt. lia.
Qed.

(** X26. The reaper deletes exactly the rows whose [expires_at] has
    passed: afterwards the table holds the live rows, unchanged, and
    nothing else, and the count returned is the number of rows that
    disappeared. *)
Theorem X26_cleanup_removes_exactly_expired tenant now db path schema tbl :
  get_connection search_path_of tenant db = Ok path ->
  resolve path db = Some (schema, tbl) ->
  exists n db',
    cleanup_expired_contexts tenant now db = (Ok n, db')
    /\ (forall i,
         lookup_row schema i db'
         = match tbl !! i with
           | Some row => if live now row then Some row else None
           | None => None
           end)
    /\ (forall tbl', schemas db' !! schema = Some tbl' ->
        n = Z.of_nat (size tbl) - Z.of_nat (size tbl') /\ 0 <= n).
Proof.
  intros Hconn Hres. unfold cleanup_expired_contexts. rewrite Hconn, Hres.
  eexists _, _. split; [reflexivity |]. split.
  - intros i. rewrite lookup_row_set_table.
    destruct (tbl !! i) as [row |] eqn:Hrow.
    + destruct (live now row) eqn:Hlive.
      * now apply map_lookup_filter_Some.
      * apply map_lookup_filter_None. right. intros row' Hrow'. simpl.
        congruence.
    + apply map_lookup_filter_None. now left.
  - intros tbl'. unfold set_table. simpl. rewrite lookup_insert_eq.
    intros [= <-].
    pose proof (map_filter_union_complement (fun kv => live now kv.2 = true) tbl)
      as Hunion.
    pose proof (map_disjoint_filter_complement
                  (fun kv : string * context_row => live now kv.2 = true) tbl)
      as Hdisj.
    apply map_size_disj_union in Hdisj. rewrite Hunion in Hdisj. lia.
Qed.

Lemma get_context_resolved tenant context_id now db path schema tbl :
  get_connection search_path_of tenant db = Ok path ->
  resolve path db = Some (schema, tbl) ->
  get_context search_path_of tenant context_id now db
  = Ok match tbl !! context_id with
       | Some row => if live now row then Some row else None
       | None => None
       end.
Proof.
  intros Hconn Hres. unfold get_context. rewrite Hconn, Hres.
  destruct (tbl !! context_id) as [row |]; [| reflexivity].
  now destruct (live now row).
Qed.

Lemma get_context_after_write tenant context_id now db path schema tbl tbl' :
  get_connection search_path_of tenant db = Ok path ->
  resolve path db = Some (schema, tbl) ->
  get_context search_path_of tenant context_id now (set_table schema tbl' db)
  = Ok match tbl' !! context_id with
       | Some row => if live now row then Some row else None
       | None => None
       end.
Proof.
  intros Hconn Hres.
  apply get_context_resolved with (path := path) (schema := schema).
  - now rewrite get_connection_set_table.
  - now apply resolve_set_table with (tbl := tbl).
Qed.

(** X27. Reaping is invisible to readers and idempotent: after it, every
    read at the same or a later time returns what it returned before, and
    reaping again at the same time deletes nothing. *)
Theorem X27_cleanup_invisible_and_idempotent
    tenant now db path schema tbl :
  get_connection search_path_of tenant db = Ok path ->
  resolve path db = Some (schema, tbl) ->
  exists n db',
    cleanup_expired_contexts tenant now db = (Ok n, db')
    /\ (forall context_id later, now <= later ->
        get_context search_path_of tenant context_id later db'
        = get_context search_path_of tenant context_id later db)
    /\ cleanup_expired_contexts tenant now db' = (Ok 0, db').
Proof.
  intros Hconn Hres. unfold cleanup_expired_contexts at 1. rewrite Hconn, Hres.
  set (kept := filter (fun kv : string * context_row => live now kv.2 = true) tbl).
  eexists _, _. split; [reflexivity |]. split.
  - intros context_id later Hlater.
    rewrite (get_context_after_write _ _ _ _ _ _ _ kept Hconn Hres).
    rewrite (get_context_resolved _ _ _ _ _ _ _ Hconn Hres). f_equal.
    destruct (tbl !! context_id) as [row |] eqn:Hrow.
    + destruct (live now row) eqn:Hlive.
      * assert (Hkept : kept !! context_id = Some row)
          by now apply map_lookup_filter_Some.
        now rewrite Hkept.
      * assert (Hkept : kept !! context_id = None).
        { apply map_lookup_filter_None. right. intros row' Hrow'. simpl.
          congruence. }
        rewrite Hkept.
        destruct (live later row) eqn:Hlive'; [| reflexivity].
        apply (live_earlier now later) in Hlive'; [congruence | exact Hlater].
    + assert (Hkept : kept !! context_id = None)
        by (apply map_lookup_filter_None; now left).
      now rewrite Hkept.
  - unfold cleanup_expired_contexts.
    rewrite get_connection_set_table, Hconn.
    rewrite (resolve_set_table _ _ _ _ kept Hres).
    assert (Hagain : filter (fun kv : string * context_row => live now kv.2 = true)
                       kept = kept).
    { apply map_eq. intros i. apply option_eq. intros row.
      unfold kept. rewrite !map_lookup_filter_Some. tauto. }
    assert (Hnone : filter (fun kv : string * context_row =>
                              ~ live now kv.2 = true) kept = ∅).
    { apply map_empty. intros i. apply map_lookup_filter_None.
      destruct (kept !! i) as [row |] eqn:Hrow; [| now left].
      right. intros row' [= <-]. simpl.
      apply map_lookup_filter_Some in Hrow as [_ Hlive]. simpl in Hlive. tauto. }
    rewrite Hagain, Hnone, map_size_empty. simpl. f_equal.
    unfold set_table. simpl. f_equal. apply insert_insert_eq.
Qed.

(** X28. An update or a soft delete touches at most the row it
    addresses: every row with another id, and every row of a schema other
    than the one the search path resolves to, is left exactly as it was. *)
Theorem X28_writes_touch_one_row tenant context_id upd now db schema' i :
  (i <> context_id
   \/ (exists path schema tbl,
         get_connection search_path_of tenant db = Ok path
         /\ resolve path db = Some (schema, tbl) /\ schema' <> schema)) ->
  lookup_row schema' i
    (snd (update_context search_path_of tenant context_id upd now db))
  = lookup_row schema' i db
  /\ lookup_row schema' i
       (snd (delete_context search_path_of tenant context_id now db))
     = lookup_row schema' i db.
Proof.
  intros Hother.
  assert (Hexec : forall path change,
             get_connection search_path_of tenant db = Ok path ->
             lookup_row schema' i
               (snd (execute_update path context_id change now db))
             = lookup_row schema' i db).
  { intros path change Hconn.
    destruct (execute_update path context_id change now db) as [[n | e] db1]
      eqn:Hexec; simpl.
    - apply execute_update_rows in Hexec
        as [[_ ->] | [_ (schema & tbl & row & row' & Hres & Hrow & _ & _ & ->)]];
        [reflexivity |].
      unfold lookup_row, set_table. simpl.
      destruct (decide (schema = schema')) as [<- | Hne].
      + rewrite lookup_insert_eq. simpl.
        destruct Hother as [Hi | (path' & schema0 & tbl0 & Hconn' & Hres' & Hne)].
        * rewrite lookup_insert_ne by congruence.
          apply resolve_some in Hres. now rewrite Hres.
        * exfalso. rewrite Hconn in Hconn'. injection Hconn' as <-.
          rewrite Hres in Hres'. injection Hres' as <- <-. now apply Hne.
      + now rewrite lookup_insert_ne.
    - unfold execute_update in Hexec.
      destruct (resolve path db) as [[schema tbl] |];
        [| now injection Hexec as _ <-].
      destruct (tbl !! context_id) as [row |]; [| discriminate].
      destruct (live now row); [| discriminate].
      destruct (change row); [discriminate |].
      now injection Hexec as _ <-. }
  unfold update_context, delete_context.
  destruct (get_connection search_path_of tenant db) as [path | e] eqn:Hconn;
    [| now split].
  split.
  - specialize (Hexec path (updated_row upd now) eq_refl).
    now destruct (execute_update path context_id (updated_row upd now) now db)
      as [[n | e] db1].
  - specialize (Hexec path (soft_deleted_row now) eq_refl).
    now destruct (execute_update path context_id (soft_deleted_row now) now db)
      as [[n | e] db1].
Qed.

(** X29. After a soft delete the record can no longer be read, at the
    time of the delete or later, although its row is still in the table
    with its data and version; only [expires_at] and [updated_at] were
    written. *)
Theorem X29_deleted_record_is_unreadable
    tenant context_id now later db path schema tbl row :
  get_connection search_path_of tenant db = Ok path ->
  resolve path db = Some (schema, tbl) ->
  tbl !! context_id = Some row ->
  live now row = true ->
  now <= later ->
  exists db1,
    delete_context search_path_of tenant context_id now db = (Ok true, db1)
    /\ get_context search_path_of tenant context_id later db1 = Ok None
    /\ lookup_row schema context_id db1
       = Some {| id := id row; context_data := context_data row;
                 context_type := context_type row; title := title row;
                 description := description row; tags := tags row;
                 tenant_id := tenant_id row; user_id := user_id row;
                 created_at := created_at row; updated_at := now;
                 expires_at := Some now; version := version row |}.
Proof.
  intros Hconn Hres Hrow Hlive Hlater.
  unfold delete_context. rewrite Hconn.
  erewrite execute_update_hit by (try eassumption; reflexivity).
  eexists. split; [reflexivity |]. split.
  - rewrite (get_context_after_write _ _ _ _ _ _ _ _ Hconn Hres).
    rewrite lookup_insert_eq. unfold live. simpl.
    assert (Hpast : (later <? now) = false) by (apply Z.ltb_ge; lia).
    now rewrite Hpast.
  - now rewrite lookup_row_set_table, lookup_insert_eq.
Qed.

(** X30. A read after a successful update returns the updated row: each
    supplied field holds the supplied value, each omitted field its
    previous value, the version is one higher, and the record is readable
    as long as its ([expires_at], possibly new) has not passed. *)
Theorem X30_read_after_update
    tenant context_id upd now later db path schema tbl row :
  get_connection search_path_of tenant db = Ok path ->
  resolve path db = Some (schema, tbl) ->
  tbl !! context_id = Some row ->
  live now row = true ->
  (match upd_title upd with
   | Some t => (String.length t <= TITLE_WIDTH)%nat
   | None => True
   end) ->
  version row < INT4_MAX ->
  let row' :=
    {| id := id row;
       context_data := default (context_data row) (upd_context_data upd);
       context_type := context_type row;
       title := coalesce (upd_title upd) (title row);
       description := coalesce (upd_description upd) (description row);
       tags := default (tags row) (upd_tags upd);
       tenant_id := tenant_id row; user_id := user_id row;
       created_at := created_at row; updated_at := now;
       expires_at := coalesce (upd_expires_at upd) (expires_at row);
       version := version row + 1 |} in
  exists db1,
    update_context search_path_of tenant context_id upd now db = (Ok true, db1)
    /\ get_context search_path_of tenant context_id later db1
       = Ok (if live later row' then Some row' else None).
Proof.
  intros Hconn Hres Hrow Hlive Htitle Hversion row'.
  assert (Hnew : updated_row upd now row = Some row').
  { unfold updated_row.
    assert (Hfit : match upd_title upd with
                   | Some t => (TITLE_WIDTH <? String.length t)%nat
                   | None => false
                   end = false).
    { destruct (upd_title upd); [apply Nat.ltb_ge; exact Htitle | reflexivity]. }
    assert (Hrange : (INT4_MAX <? version row + 1) = false)
      by (apply Z.ltb_ge; lia).
    now rewrite Hfit, Hrange. }
  unfold update_context. rewrite Hconn.
  rewrite (execute_update_hit _ _ _ _ _ _ _ _ _ Hres Hrow Hlive Hnew).
  eexists. split; [reflexivity |].
  rewrite (get_context_after_write _ _ _ _ _ _ _ _ Hconn Hres).
  now rewrite lookup_insert_eq.
Qed.

End Postgres.

(** *** A tenant with one live and one expired record *)

Definition stale_row : context_row :=
  {| id := "ctx_2"; context_data := "{}"; context_type := "note";
     title := None; description := None; tags := [];
     tenant_id := "acme"; user_id := None;
     created_at := 50; updated_at := 50; expires_at := Some 500;
     version := 3 |}.

Definition acme_table : gmap string context_row :=
  {[ "ctx_1" := note_row; "ctx_2" := stale_row ]}.

Definition acme_db2 : database :=
  {| online := true;
     schemas := {[ "tenant_acme" := acme_table;
                   "tenant_globex" := {[ "ctx_1" := stale_row ]} ]} |}.

Example cleanup_run :
  fst (cleanup_expired_contexts plain_search_path "acme" 1000 acme_db2) = Ok 1
  /\ lookup_row "tenant_acme" "ctx_2"
       (snd (cleanup_expired_contexts plain_search_path "acme" 1000 acme_db2))
     = None
  /\ lookup_row "tenant_globex" "ctx_1"
       (snd (cleanup_expired_contexts plain_search_path "acme" 1000 acme_db2))
     = Some stale_row.
Proof. repeat split; vm_compute; reflexivity. Qed.

Lemma X26_cleanup_removes_exactly_expired_witness :
  exists n db',
    cleanup_expired_contexts plain_search_path "acme" 1000 acme_db2 = (Ok n, db')
    /\ (forall i,
         lookup_row "tenant_acme" i db'
         = match acme_table !! i with
           | Some row => if live 1000 row then Some row else None
           | None => None
           end)
    /\ (forall tbl', schemas db' !! "tenant_acme" = Some tbl' ->
        n = Z.of_nat (size acme_table) - Z.of_nat (size tbl') /\ 0 <= n).
Proof.
  apply (X26_cleanup_removes_exactly_expired plain_search_path "acme" 1000
           acme_db2 ["tenant_acme"; "public"] "tenant_acme" acme_table);
    reflexivity.
Defined.

Lemma X27_cleanup_invisible_and_idempotent_witness :
  exists n db',
    cleanup_expired_contexts plain_search_path "acme" 1000 acme_db2 = (Ok n, db')
    /\ (forall context_id later, 1000 <= later ->
        get_context plain_search_path "acme" context_id later db'
        = get_context plain_search_path "acme" context_id later acme_db2)
    /\ cleanup_expired_contexts plain_search_path "acme" 1000 db' = (Ok 0, db').
Proof.
  apply (X27_cleanup_invisible_and_idempotent plain_search_path "acme" 1000
           acme_db2 ["tenant_acme"; "public"] "tenant_acme" acme_table);
    reflexivity.
Defined.

Lemma X28_writes_touch_one_row_witness :
  lookup_row "tenant_globex" "ctx_1"
    (snd (update_context plain_search_path "acme" "ctx_1" retitle 1000 acme_db2))
  = lookup_row "tenant_globex" "ctx_1" acme_db2
  /\ lookup_row "tenant_globex" "ctx_1"
       (snd (delete_context plain_search_path "acme" "ctx_1" 1000 acme_db2))
     = lookup_row "tenant_globex" "ctx_1" acme_db2.
Proof.
  apply X28_writes_touch_one_row. right.
  exists ["tenant_acme"; "public"], "tenant_acme", acme_table.
  split; [reflexivity | split; [reflexivity | discriminate]].
Defined.

Lemma X29_deleted_record_is_unreadable_witness :
  exists db1,
    delete_context plain_search_path "acme" "ctx_1" 1000 acme_db2 = (Ok true, db1)
    /\ get_context plain_search_path "acme" "ctx_1" 1000 db1 = Ok None
    /\ lookup_row "tenant_acme" "ctx_1" db1
       = Some {| id := "ctx_1"; context_data := "{}"; context_type := "note";
                 title := Some "first"; description := None; tags := ["a"];
                 tenant_id := "acme"; user_id := Some "user-1";
                 created_at := 100; updated_at := 1000;
                 expires_at := Some 1000; version := 1 |}.
Proof.
  apply (X29_deleted_record_is_unreadable plain_search_path "acme" "ctx_1"
           1000 1000 acme_db2 ["tenant_acme"; "public"] "tenant_acme"
           acme_table note_row); reflexivity.
Defined.

Lemma X30_read_after_update_witness :
  exists db1,
    update_context plain_search_path "acme" "ctx_1" retitle 1000 acme_db2
    = (Ok true, db1)
    /\ get_context plain_search_path "acme" "ctx_1" 2000 db1
       = Ok (Some {| id := "ctx_1"; context_data := "{}";
                     context_type := "note"; title := Some "second";
                     description := Some "text"; tags := [];
                     tenant_id := "acme"; user_id := Some "user-1";
                     created_at := 100; updated_at := 1000;
                     expires_at := Some 5000; version := 2 |}).
Proof.
  apply (X30_read_after_update plain_search_path "acme" "ctx_1" retitle
           1000 2000 acme_db2 ["tenant_acme"; "public"] "tenant_acme"
           acme_table note_row); try reflexivity.
  simpl. unfold TITLE_WIDTH. lia.
Defined.

End RepositoryLaws.
